(** * py-backpack: the spreadsheet-driven fitting glue of [backpack/datafit.py]

    A shallow embedding of [get_parameters], [update_model],
    [update_submodels], the write-back loop of [fit] and [fake_sigma]
    (with [arraymanip.index]), followed by the properties of the
    specification that concern them.

    Modelling choices, all visible in the definitions below:
    - a cell holds a Python value: text, an integer, or an infinity (the
      only floats the code itself creates, [np.inf] and [-np.inf]);
      other floats are outside the embedding;
    - the sheet is the list of its data rows (sheet row [i+2] is list
      index [i]); the header row is the fixed layout the module reads;
    - Python dicts are association lists in insertion order, because
      [update_model] iterates [self.parameters] in that order;
    - an exception leaves the mutated sheet object behind, so a
      computation returns an outcome together with the state;
    - the only loop that may not terminate, the [while] of the link
      resolution, takes fuel and answers [Diverge] when it runs out;
    - the submodel registry ([model_functions], [inspect.signature] of
      the [eval] of a submodel name) and Python's own [eval] of the
      assembled text are parameters; the registry is asked per place of
      the source that evaluates a name, and answers with the parameter
      names or with the exception raised there. *)

From Stdlib Require Import String Ascii List ZArith QArith Qabs Lia Bool Arith DecimalString.
Import ListNotations.
Close Scope Q_scope.
Open Scope string_scope.

(* ================================================================== *)
(** * Python values and text helpers *)

Inductive value : Type :=
| VStr (s : string)
| VInt (z : Z)
| VInf (negative : bool).

(** Python [==] on cell values. *)
Definition value_eqb (a b : value) : bool :=
  match a, b with
  | VStr s, VStr t => String.eqb s t
  | VInt m, VInt n => Z.eqb m n
  | VInf m, VInf n => Bool.eqb m n
  | _, _ => false
  end.

(** [str(v)], which is also what an f-string field [{v}] prints. *)
Definition str (v : value) : string :=
  match v with
  | VStr s => s
  | VInt z => NilZero.string_of_int (Z.to_int z)
  | VInf false => "inf"
  | VInf true => "-inf"
  end.

Definition str_nat (n : nat) : string := NilZero.string_of_uint (Nat.to_uint n).

(** [s.split(sep)] for a one-character separator. *)
Fixpoint split (sep : ascii) (s : string) : list string :=
  match s with
  | EmptyString => [EmptyString]
  | String c s' =>
      if Ascii.eqb c sep then EmptyString :: split sep s'
      else match split sep s' with
           | [] => [String c EmptyString]
           | h :: t => String c h :: t
           end
  end.

(** [s.split(sep)[0]] and [s.split(sep)[-1]]. *)
Definition split_first (sep : ascii) (s : string) : string := hd "" (split sep s).
Definition split_last (sep : ascii) (s : string) : string := last (split sep s) "".

(** [s[:-n]]. *)
Definition drop_last (n : nat) (s : string) : string :=
  substring 0 (Nat.sub (String.length s) n) s.

Definition is_space (c : ascii) : bool :=
  let n := nat_of_ascii c in
  Nat.eqb n 32 || (Nat.leb 9 n && Nat.leb n 13) || (Nat.leb 28 n && Nat.leb n 31).

Fixpoint lstrip (s : string) : string :=
  match s with
  | String c s' => if is_space c then lstrip s' else s
  | EmptyString => EmptyString
  end.

Definition string_rev (s : string) : string :=
  string_of_list_ascii (rev (list_ascii_of_string s)).

(** [s.strip()]. *)
Definition strip (s : string) : string :=
  string_rev (lstrip (string_rev (lstrip s))).

(** [l.index(v)] as an option: the first position holding [v]. *)
Fixpoint index_of (v : value) (l : list value) : option nat :=
  match l with
  | [] => None
  | a :: l' => if value_eqb a v then Some 0
               else match index_of v l' with
                    | Some i => Some (S i)
                    | None => None
                    end
  end.

Fixpoint index_of_string (v : value) (l : list string) : option nat :=
  match l with
  | [] => None
  | a :: l' => if value_eqb (VStr a) v then Some 0
               else match index_of_string v l' with
                    | Some i => Some (S i)
                    | None => None
                    end
  end.

(** [v in l]. *)
Definition value_in (v : value) (l : list value) : bool :=
  existsb (fun a => value_eqb a v) l.

(** Replace position [i]; a position out of range leaves the list alone
    (the callers test the range first where Python would raise). *)
Fixpoint list_set {A : Type} (i : nat) (v : A) (l : list A) : list A :=
  match l, i with
  | [], _ => []
  | _ :: l', 0 => v :: l'
  | a :: l', S i' => a :: list_set i' v l'
  end.

(* ================================================================== *)
(** * Association lists for Python dicts *)

Fixpoint assoc {A : Type} (k : string) (d : list (string * A)) : option A :=
  match d with
  | [] => None
  | (k', a) :: d' => if String.eqb k' k then Some a else assoc k d'
  end.

(** [k in d]. *)
Definition has_key {A : Type} (k : string) (d : list (string * A)) : bool :=
  match assoc k d with Some _ => true | None => false end.

(** [d[k] = a]: overwrite in place, or append a new key. *)
Fixpoint assoc_set {A : Type} (k : string) (a : A) (d : list (string * A))
  : list (string * A) :=
  match d with
  | [] => [(k, a)]
  | (k', a') :: d' =>
      if String.eqb k' k then (k', a) :: d' else (k', a') :: assoc_set k a d'
  end.

(* ================================================================== *)
(** * Outcomes: results, exceptions, and the loop that may not stop *)

Inductive exn : Type :=
| MissingArgument (submodel arg : string)
    (* "Submodel '{submodel}' is missing argument '{arg}'." *)
| ValueError_cannot_find (submodel2link arg2link : string)
    (* ValueError("Cannot find submodel '{submodel2link}' with arg '{arg2link}'.") *)
| ValueError_no_guess (guess_missing : list string)
    (* ValueError('Parameters with id {guess_missing} do not have a guess value.') *)
| ValueError_not_in_list
    (* the ValueError of list.index *)
| ValueError_empty_argmin
    (* the ValueError of np.argmin on an empty array *)
| KeyError (key : string)
| IndexError
| AttributeError
| NameError (name : string)
| SyntaxError (source : string)
| TypeError
    (* the TypeError of inspect.signature on what is not callable *)
| SolverFailure.

Inductive outcome (A : Type) : Type :=
| Ok (a : A)
| Raise (e : exn)
| Diverge.
Arguments Ok {A} a.
Arguments Raise {A} e.
Arguments Diverge {A}.

Definition obind {A B : Type} (o : outcome A) (k : A -> outcome B) : outcome B :=
  match o with
  | Ok a => k a
  | Raise e => Raise e
  | Diverge => Diverge
  end.

Definition of_option {A : Type} (e : exn) (o : option A) : outcome A :=
  match o with Some a => Ok a | None => Raise e end.

Declare Scope outcome_scope.
Delimit Scope outcome_scope with outcome.
Notation "x <- m ;; k" := (obind m (fun x => k))
  (at level 61, m at next level, right associativity) : outcome_scope.
Notation "' p <- m ;; k" := (obind m (fun p => k))
  (at level 61, p pattern, m at next level, right associativity) : outcome_scope.

(* ================================================================== *)
(** * The Tabular Store and the parameter mapping *)

(** One data row; the header is
    [#, submodel, arg, use, vary, guess, min, max, fitted, error, id]. *)
Record row : Type := mk_row {
  c_hash : value;
  c_submodel : string;
  c_arg : string;
  c_use : value;
  c_vary : value;
  c_guess : value;
  c_min : value;
  c_max : value;
  c_fitted : value;
  c_error : value;
  c_id : value
}.

(** The columns [update_model] and [fit] write with [set_cell_value]. *)
Inductive column : Type := col_id | col_guess | col_fitted | col_error.

Definition set_field (c : column) (v : value) (r : row) : row :=
  match c with
  | col_id => mk_row (c_hash r) (c_submodel r) (c_arg r) (c_use r) (c_vary r)
                (c_guess r) (c_min r) (c_max r) (c_fitted r) (c_error r) v
  | col_guess => mk_row (c_hash r) (c_submodel r) (c_arg r) (c_use r) (c_vary r)
                   v (c_min r) (c_max r) (c_fitted r) (c_error r) (c_id r)
  | col_fitted => mk_row (c_hash r) (c_submodel r) (c_arg r) (c_use r) (c_vary r)
                    (c_guess r) (c_min r) (c_max r) v (c_error r) (c_id r)
  | col_error => mk_row (c_hash r) (c_submodel r) (c_arg r) (c_use r) (c_vary r)
                   (c_guess r) (c_min r) (c_max r) (c_fitted r) v (c_id r)
  end.

(** [set_cell_value(value, row=hashtag+2, col)]. *)
Definition set_cell_value (v : value) (hashtag : nat) (c : column)
  (cells : list row) : list row :=
  match nth_error cells hashtag with
  | Some r => list_set hashtag (set_field c v r) cells
  | None => cells
  end.

Definition set_hash (v : value) (r : row) : row :=
  mk_row v (c_submodel r) (c_arg r) (c_use r) (c_vary r)
    (c_guess r) (c_min r) (c_max r) (c_fitted r) (c_error r) (c_id r).

(** [set_col_values(np.arange(0, last_row-1), col=1, row_start=2)]. *)
Fixpoint number_rows (n : nat) (cells : list row) : list row :=
  match cells with
  | [] => []
  | r :: cells' => set_hash (VInt (Z.of_nat n)) r :: number_rows (S n) cells'
  end.

(** [set_col_values(data=['', ...], row_start=2, col=id_col)]. *)
Definition clear_ids (cells : list row) : list row :=
  map (set_field col_id (VStr "")) cells.

(** [self.parameters[submodel][arg]]: one list per column, one slot per
    use-case.  The [#] slot is the row number [get_parameters] has just
    written, kept as a number; the [submodel] and [arg] columns of the
    inner dict are never read and are left out. *)
Record entry : Type := mk_entry {
  e_hash : list nat;
  e_use : list value;
  e_vary : list value;
  e_guess : list value;
  e_min : list value;
  e_max : list value;
  e_fitted : list value;
  e_error : list value;
  e_id : list value
}.

Definition arguments : Type := list (string * entry).
Definition params : Type := list (string * arguments).

Definition entry_of_row (n : nat) (r : row) : entry :=
  mk_entry [n] [c_use r] [c_vary r] [c_guess r] [c_min r] [c_max r]
    [c_fitted r] [c_error r] [c_id r].

Definition entry_append (e : entry) (n : nat) (r : row) : entry :=
  mk_entry (e_hash e ++ [n]) (e_use e ++ [c_use r]) (e_vary e ++ [c_vary r])
    (e_guess e ++ [c_guess r]) (e_min e ++ [c_min r]) (e_max e ++ [c_max r])
    (e_fitted e ++ [c_fitted r]) (e_error e ++ [c_error r]) (e_id e ++ [c_id r]).

(** The body of the [for row_number, submodel in enumerate(...)] loop. *)
Definition add_row (ps : params) (n : nat) (r : row) : params :=
  if String.eqb (c_submodel r) "" then ps
  else match assoc (c_submodel r) ps with
       | Some args =>
           match assoc (c_arg r) args with
           | Some e =>
               assoc_set (c_submodel r)
                 (assoc_set (c_arg r) (entry_append e n r) args) ps
           | None =>
               assoc_set (c_submodel r)
                 (assoc_set (c_arg r) (entry_of_row n r) args) ps
           end
       | None => assoc_set (c_submodel r) [(c_arg r, entry_of_row n r)] ps
       end.

Fixpoint scan_rows (ps : params) (n : nat) (cells : list row) : params :=
  match cells with
  | [] => ps
  | r :: cells' => scan_rows (add_row ps n r) (S n) cells'
  end.

(* ================================================================== *)
(** * The sheet object *)

(** The attributes [datafit] adds to the sheet object, the data rows of
    the sheet itself ([cells]), and the locals of [update_model] that
    live across its loop: [var_string], [model_string] (the local; the
    attribute is [self_model_string]) and the counters [p] and [x].
    Each entry of [self_submodel] keeps its [guess_string] and [fit_string]. *)
Record self : Type := mk_self {
  cells : list row;
  parameters : params;
  p_min : list value;
  p_max : list value;
  p_guess : list value;
  p_fitted : list value;
  p_error : list value;
  linked_parameters : list (string * nat);
  id_list : list string;
  self_model_string : string;
  self_submodel : list (string * (string * string));
  var_string : string;
  model_string : string;
  p_counter : nat;
  x_counter : nat
}.

Definition set_cells (v : list row) (s : self) : self :=
  mk_self v (parameters s) (p_min s) (p_max s) (p_guess s) (p_fitted s)
    (p_error s) (linked_parameters s) (id_list s) (self_model_string s)
    (self_submodel s) (var_string s) (model_string s) (p_counter s)
    (x_counter s).
Definition set_parameters (v : params) (s : self) : self :=
  mk_self (cells s) v (p_min s) (p_max s) (p_guess s) (p_fitted s)
    (p_error s) (linked_parameters s) (id_list s) (self_model_string s)
    (self_submodel s) (var_string s) (model_string s) (p_counter s)
    (x_counter s).
Definition set_p_min (v : list value) (s : self) : self :=
  mk_self (cells s) (parameters s) v (p_max s) (p_guess s) (p_fitted s)
    (p_error s) (linked_parameters s) (id_list s) (self_model_string s)
    (self_submodel s) (var_string s) (model_string s) (p_counter s)
    (x_counter s).
Definition set_p_max (v : list value) (s : self) : self :=
  mk_self (cells s) (parameters s) (p_min s) v (p_guess s) (p_fitted s)
    (p_error s) (linked_parameters s) (id_list s) (self_model_string s)
    (self_submodel s) (var_string s) (model_string s) (p_counter s)
    (x_counter s).
Definition set_p_guess (v : list value) (s : self) : self :=
  mk_self (cells s) (parameters s) (p_min s) (p_max s) v (p_fitted s)
    (p_error s) (linked_parameters s) (id_list s) (self_model_string s)
    (self_submodel s) (var_string s) (model_string s) (p_counter s)
    (x_counter s).
Definition set_p_fitted (v : list value) (s : self) : self :=
  mk_self (cells s) (parameters s) (p_min s) (p_max s) (p_guess s) v
    (p_error s) (linked_parameters s) (id_list s) (self_model_string s)
    (self_submodel s) (var_string s) (model_string s) (p_counter s)
    (x_counter s).
Definition set_p_error (v : list value) (s : self) : self :=
  mk_self (cells s) (parameters s) (p_min s) (p_max s) (p_guess s)
    (p_fitted s) v (linked_parameters s) (id_list s) (self_model_string s)
    (self_submodel s) (var_string s) (model_string s) (p_counter s)
    (x_counter s).
Definition set_linked_parameters (v : list (string * nat)) (s : self) : self :=
  mk_self (cells s) (parameters s) (p_min s) (p_max s) (p_guess s)
    (p_fitted s) (p_error s) v (id_list s) (self_model_string s)
    (self_submodel s) (var_string s) (model_string s) (p_counter s)
    (x_counter s).
Definition set_id_list (v : list string) (s : self) : self :=
  mk_self (cells s) (parameters s) (p_min s) (p_max s) (p_guess s)
    (p_fitted s) (p_error s) (linked_parameters s) v (self_model_string s)
    (self_submodel s) (var_string s) (model_string s) (p_counter s)
    (x_counter s).
Definition set_self_model_string (v : string) (s : self) : self :=
  mk_self (cells s) (parameters s) (p_min s) (p_max s) (p_guess s)
    (p_fitted s) (p_error s) (linked_parameters s) (id_list s) v
    (self_submodel s) (var_string s) (model_string s) (p_counter s)
    (x_counter s).
Definition set_self_submodel (v : list (string * (string * string))) (s : self) : self :=
  mk_self (cells s) (parameters s) (p_min s) (p_max s) (p_guess s)
    (p_fitted s) (p_error s) (linked_parameters s) (id_list s)
    (self_model_string s) v (var_string s) (model_string s) (p_counter s)
    (x_counter s).
Definition set_var_string (v : string) (s : self) : self :=
  mk_self (cells s) (parameters s) (p_min s) (p_max s) (p_guess s)
    (p_fitted s) (p_error s) (linked_parameters s) (id_list s)
    (self_model_string s) (self_submodel s) v (model_string s) (p_counter s)
    (x_counter s).
Definition set_model_string (v : string) (s : self) : self :=
  mk_self (cells s) (parameters s) (p_min s) (p_max s) (p_guess s)
    (p_fitted s) (p_error s) (linked_parameters s) (id_list s)
    (self_model_string s) (self_submodel s) (var_string s) v (p_counter s)
    (x_counter s).
Definition set_p_counter (v : nat) (s : self) : self :=
  mk_self (cells s) (parameters s) (p_min s) (p_max s) (p_guess s)
    (p_fitted s) (p_error s) (linked_parameters s) (id_list s)
    (self_model_string s) (self_submodel s) (var_string s) (model_string s) v
    (x_counter s).
Definition set_x_counter (v : nat) (s : self) : self :=
  mk_self (cells s) (parameters s) (p_min s) (p_max s) (p_guess s)
    (p_fitted s) (p_error s) (linked_parameters s) (id_list s)
    (self_model_string s) (self_submodel s) (var_string s) (model_string s)
    (p_counter s) v.

(** A method of the sheet object: it may return, raise or never stop,
    and in the first two cases leaves a state behind. *)
Definition M (A : Type) : Type := self -> outcome A * self.

Definition ret {A : Type} (a : A) : M A := fun s => (Ok a, s).

Definition bind {A B : Type} (m : M A) (k : A -> M B) : M B :=
  fun s =>
    match m s with
    | (Ok a, s') => k a s'
    | (Raise e, s') => (Raise e, s')
    | (Diverge, s') => (Diverge, s')
    end.

(** Evaluate an expression that reads the state and may raise. *)
Definition eval_in {A : Type} (f : self -> outcome A) : M A := fun s => (f s, s).

Definition modify (f : self -> self) : M unit := fun s => (Ok tt, f s).

Declare Scope method_scope.
Delimit Scope method_scope with method.
Notation "x <- m ;; k" := (bind m (fun x => k))
  (at level 61, m at next level, right associativity) : method_scope.
Notation "' p <- m ;; k" := (bind m (fun p => k))
  (at level 61, p pattern, m at next level, right associativity) : method_scope.
Notation "m ;;; k" := (bind m (fun _ => k))
  (at level 61, right associativity) : method_scope.

(** [for a in l: body a]. *)
Fixpoint for_each {A : Type} (l : list A) (body : A -> M unit) : M unit :=
  match l with
  | [] => ret tt
  | a :: l' => bind (body a) (fun _ => for_each l' body)
  end.

(** [get_parameters]: number the [#] column, then scan the rows. *)
Definition get_parameters : M unit :=
  modify (fun s =>
    let numbered := number_rows 0 (cells s) in
    set_parameters (scan_rows [] 0 numbered) (set_cells numbered s)).

(* ================================================================== *)
(** * Reading the parameter mapping *)

(** [l[i]]. *)
Definition item {A : Type} (l : list A) (i : nat) : outcome A :=
  of_option IndexError (nth_error l i).

(** [l[i] = v]. *)
Definition store_item (l : list value) (i : nat) (v : value) : outcome (list value) :=
  if Nat.ltb i (List.length l) then Ok (list_set i v l) else Raise IndexError.

(** [self.parameters[submodel][arg]]. *)
Definition get_entry (ps : params) (submodel arg : string) : outcome entry :=
  (args <- of_option (KeyError submodel) (assoc submodel ps) ;;
   of_option (KeyError arg) (assoc arg args))%outcome.

(** [self.parameters[submodel][arg]['use'].index('y')]. *)
Definition use_index (ps : params) (submodel arg : string) : outcome nat :=
  (e <- get_entry ps submodel arg ;;
   of_option ValueError_not_in_list (index_of (VStr "y") (e_use e)))%outcome.

(** The [try: to_use = ... except ValueError: missing_arg = True] block
    followed by [if missing_arg: raise MissingArgument(submodel, arg)]. *)
Definition to_use_of (ps : params) (submodel arg : string) : outcome nat :=
  match use_index ps submodel arg with
  | Raise ValueError_not_in_list => Raise (MissingArgument submodel arg)
  | o => o
  end.

(** ['y' in [use for sublist in [... for arg in self.parameters[submodel]]
    for use in sublist]]. *)
Definition is_active (ps : params) (submodel : string) : outcome bool :=
  (args <- of_option (KeyError submodel) (assoc submodel ps) ;;
   Ok (existsb (fun ae => value_in (VStr "y") (e_use (snd ae))) args))%outcome.

Definition entry_column (c : column) (e : entry) : list value :=
  match c with
  | col_id => e_id e
  | col_guess => e_guess e
  | col_fitted => e_fitted e
  | col_error => e_error e
  end.

Definition set_entry_column (c : column) (l : list value) (e : entry) : entry :=
  match c with
  | col_id => mk_entry (e_hash e) (e_use e) (e_vary e) (e_guess e) (e_min e)
                (e_max e) (e_fitted e) (e_error e) l
  | col_guess => mk_entry (e_hash e) (e_use e) (e_vary e) l (e_min e)
                   (e_max e) (e_fitted e) (e_error e) (e_id e)
  | col_fitted => mk_entry (e_hash e) (e_use e) (e_vary e) (e_guess e) (e_min e)
                    (e_max e) l (e_error e) (e_id e)
  | col_error => mk_entry (e_hash e) (e_use e) (e_vary e) (e_guess e) (e_min e)
                   (e_max e) (e_fitted e) l (e_id e)
  end.

(** [self.parameters[submodel][arg][c][to_use] = v]. *)
Definition assign_param (ps : params) (submodel arg : string) (c : column)
  (to_use : nat) (v : value) : outcome params :=
  (args <- of_option (KeyError submodel) (assoc submodel ps) ;;
   e <- of_option (KeyError arg) (assoc arg args) ;;
   l <- store_item (entry_column c e) to_use v ;;
   Ok (assoc_set submodel (assoc_set arg (set_entry_column c l e) args) ps))%outcome.

(** [vary != 'y' and vary != 'n']. *)
Definition is_link (vary : value) : bool :=
  negb (value_eqb vary (VStr "y")) && negb (value_eqb vary (VStr "n")).

(** One resolution of a link, as written twice in [update_model]
    (before the [while] and in its body): split the cell, test
    [submodel2link in self.parameters and arg2link in
    self.parameters[submodel]] (the second test looks in the submodel
    being assembled), then read the target's selected [vary]. *)
Definition link_target (ps : params) (submodel : string) (vary : value)
  : outcome (string * string * nat * value) :=
  match vary with
  | VStr s =>
      let submodel2link := split_first "," s in
      let arg2link := split_last "," s in
      (found <- (if has_key submodel2link ps
                 then args <- of_option (KeyError submodel) (assoc submodel ps) ;;
                      Ok (has_key arg2link args)
                 else Ok false) ;;
       if found : bool then
         to_use_linked <- use_index ps submodel2link arg2link ;;
         e <- get_entry ps submodel2link arg2link ;;
         vary2 <- item (e_vary e) to_use_linked ;;
         Ok (submodel2link, arg2link, to_use_linked, vary2)
       else Raise (ValueError_cannot_find submodel2link arg2link))%outcome
  | _ => Raise AttributeError
  end.

(** [while vary2 != 'y' and vary2 != 'n': ...]; one unit of fuel per
    iteration of the body. *)
Fixpoint follow_links (fuel : nat) (ps : params) (submodel : string)
  (t : string * string * nat * value) : outcome (string * string * nat * value) :=
  if is_link (snd t) then
    match fuel with
    | 0 => Diverge
    | S fuel' =>
        (t' <- link_target ps submodel (snd t) ;;
         follow_links fuel' ps submodel t')%outcome
    end
  else Ok t.

(** The whole link resolution of one argument. *)
Definition resolve_link (fuel : nat) (ps : params) (submodel : string)
  (vary : value) : outcome (string * string * nat * value) :=
  (t <- link_target ps submodel vary ;;
   follow_links fuel ps submodel t)%outcome.

(* ================================================================== *)
(** * [update_model], [update_submodels] and [fit] *)

Definition raise {A : Type} (e : exn) : M A := fun s => (Raise e, s).

(** [self.set_cell_value(value=v, row=hashtag+2, col=c)]. *)
Definition write_cell (v : value) (hashtag : nat) (c : column) : M unit :=
  modify (fun s => set_cells (set_cell_value v hashtag c (cells s)) s).

(** [self.parameters[submodel][arg][c][to_use] = v]. *)
Definition assign (submodel arg : string) (c : column) (to_use : nat) (v : value)
  : M unit :=
  fun s =>
    match assign_param (parameters s) submodel arg c to_use v with
    | Ok ps => (Ok tt, set_parameters ps s)
    | Raise e => (Raise e, s)
    | Diverge => (Diverge, s)
    end.

(** [model_string += t] and [var_string += t]. *)
Definition model_append (t : string) : M unit :=
  modify (fun s => set_model_string (model_string s ++ t) s).
Definition var_append (t : string) : M unit :=
  modify (fun s => set_var_string (var_string s ++ t) s).

(** [[self.id_list[i] for i, x in enumerate(self.p_guess) if x == '']],
    with the enumeration started at [i]. *)
Fixpoint guess_missing_from (ids : list string) (i : nat) (guess : list value)
  : outcome (list string) :=
  match guess with
  | [] => Ok []
  | g :: guess' =>
      if value_eqb g (VStr "") then
        (id <- item ids i ;;
         rest <- guess_missing_from ids (S i) guess' ;;
         Ok (id :: rest))%outcome
      else guess_missing_from ids (S i) guess'
  end.

(** [if '' in l: l = [d if x == '' else x for x in l]]. *)
Definition fill_empty (d : value) (l : list value) : list value :=
  if value_in (VStr "") l
  then map (fun x => if value_eqb x (VStr "") then d else x) l
  else l.

(** The four places that evaluate a submodel name, each in the scope
    of its own method: [eval(submodel_name)] in [update_model],
    [eval(f'__main__.{submodel_name}')] and then [eval(submodel_name)]
    in [update_submodels], and [eval(submodel_name)] in [fit]. *)
Inductive scope : Type :=
| in_update_model
| in_main
| in_update_submodels
| in_fit.

Section Fitting.

(** The Submodel Registry: what
    [list(inspect.signature(eval(text)).parameters)] gives for a text
    at one of these places, the parameter names or the exception
    raised: [NameError] for a name that is not bound, [SyntaxError]
    for a text that is no expression, [TypeError] for a name bound to
    something that is not callable (a local of the method, say),
    [AttributeError] for a name that [__main__] does not have.  The
    answer for a text at a place is taken to be the same throughout a
    call: names that a method binds only part-way through its loop
    ([arg], [to_use], ...) are outside the embedding. *)
Variable signature : scope -> string -> outcome (list string).

(** Whether Python's [eval] accepts a source text as an expression. *)
Variable py_accepts : string -> bool.

(** [scipy.optimize.curve_fit] on the assembled model source with the
    guess and the bounds (the data stay outside the embedding); it
    gives the fitted vector and the square roots of the covariance
    diagonal. *)
Variable curve_fit :
  string -> list value -> list value -> list value -> outcome (list value * list value).

(** [eval(src)] kept only for its failure. *)
Definition py_eval (src : string) : M unit :=
  if py_accepts src then ret tt else raise (SyntaxError src).

(** The body of [for arg in args_expected[1:]] in [update_model]. *)
Definition assemble_arg (fuel : nat) (submodel arg : string) : M unit :=
  (to_use <- eval_in (fun s => to_use_of (parameters s) submodel arg) ;;
   e <- eval_in (fun s => get_entry (parameters s) submodel arg) ;;
   vary <- eval_in (fun _ => item (e_vary e) to_use) ;;
   hashtag <- eval_in (fun _ => item (e_hash e) to_use) ;;
   if is_link vary then
     (* linked parameter *)
     ' (submodel2link, arg2link, to_use_linked, vary2) <-
       eval_in (fun s => resolve_link fuel (parameters s) submodel vary) ;;
     if value_eqb vary2 (VStr "n") then
       v <- eval_in (fun s =>
              (e2 <- get_entry (parameters s) submodel2link arg2link ;;
               item (e_guess e2) to_use_linked)%outcome) ;;
       model_append (str v ++ ", ") ;;;
       write_cell (VStr "-") hashtag col_id ;;;
       write_cell v hashtag col_guess ;;;
       write_cell v hashtag col_fitted ;;;
       write_cell (VInt 0) hashtag col_error
     else
       let key := submodel2link ++ "," ++ arg2link in
       linked <- eval_in (fun s => Ok (assoc key (linked_parameters s))) ;;
       match linked with
       | Some x_temp =>
           write_cell (VStr ("x" ++ str_nat x_temp)) hashtag col_id ;;;
           assign submodel arg col_id to_use (VStr ("x" ++ str_nat x_temp)) ;;;
           model_append ("x" ++ str_nat x_temp ++ ", ")
       | None =>
           x <- eval_in (fun s => Ok (x_counter s)) ;;
           modify (fun s =>
             set_linked_parameters (assoc_set key x (linked_parameters s)) s) ;;;
           write_cell (VStr ("x" ++ str_nat x)) hashtag col_id ;;;
           assign submodel arg col_id to_use (VStr ("x" ++ str_nat x)) ;;;
           model_append ("x" ++ str_nat x ++ ", ") ;;;
           modify (fun s => set_x_counter (S (x_counter s)) s)
       end
   else if value_eqb vary (VStr "n") then
     (* fixed parameter *)
     v <- eval_in (fun _ => item (e_guess e) to_use) ;;
     model_append (str v ++ ", ") ;;;
     write_cell (VStr "-") hashtag col_id ;;;
     assign submodel arg col_id to_use (VStr "-") ;;;
     write_cell v hashtag col_fitted ;;;
     assign submodel arg col_fitted to_use v ;;;
     write_cell (VInt 0) hashtag col_error ;;;
     assign submodel arg col_error to_use (VInt 0)
   else
     (* variable parameter *)
     mn <- eval_in (fun _ => item (e_min e) to_use) ;;
     modify (fun s => set_p_min (p_min s ++ [mn]) s) ;;;
     mx <- eval_in (fun _ => item (e_max e) to_use) ;;
     modify (fun s => set_p_max (p_max s ++ [mx]) s) ;;;
     g <- eval_in (fun _ => item (e_guess e) to_use) ;;
     modify (fun s => set_p_guess (p_guess s ++ [g]) s) ;;;
     f <- eval_in (fun _ => item (e_fitted e) to_use) ;;
     modify (fun s => set_p_fitted (p_fitted s ++ [f]) s) ;;;
     er <- eval_in (fun _ => item (e_error e) to_use) ;;
     modify (fun s => set_p_error (p_error s ++ [er]) s) ;;;
     linked <- eval_in (fun s =>
                 Ok (assoc (submodel ++ "," ++ arg) (linked_parameters s))) ;;
     match linked with
     | Some x_temp =>
         write_cell (VStr ("x" ++ str_nat x_temp)) hashtag col_id ;;;
         assign submodel arg col_id to_use (VStr ("x" ++ str_nat x_temp)) ;;;
         var_append ("x" ++ str_nat x_temp ++ ", ") ;;;
         model_append ("x" ++ str_nat x_temp ++ ", ")
     | None =>
         p <- eval_in (fun s => Ok (p_counter s)) ;;
         write_cell (VStr ("p" ++ str_nat p)) hashtag col_id ;;;
         assign submodel arg col_id to_use (VStr ("p" ++ str_nat p)) ;;;
         var_append ("p" ++ str_nat p ++ ", ") ;;;
         model_append ("p" ++ str_nat p ++ ", ") ;;;
         modify (fun s => set_p_counter (S (p_counter s)) s)
     end)%method.

(** The body of [for submodel in self.parameters] in [update_model]. *)
Definition assemble_submodel (fuel : nat) (submodel : string) : M unit :=
  (active <- eval_in (fun s => is_active (parameters s) submodel) ;;
   if active : bool then
     let submodel_name := split_first "#" submodel in
     args_expected <- eval_in (fun _ => signature in_update_model submodel_name) ;;
     model_append (submodel_name ++ "(x, ") ;;;
     for_each (tl args_expected) (assemble_arg fuel submodel) ;;;
     model_append ") + "
   else ret tt)%method.

(** [self.submodel[submodel][which] += t], on the pair
    [(guess_string, fit_string)]. *)
Definition submodel_update (submodel : string)
  (f : string * string -> string * string) : M unit :=
  fun s =>
    match assoc submodel (self_submodel s) with
    | Some gf => (Ok tt, set_self_submodel (assoc_set submodel (f gf) (self_submodel s)) s)
    | None => (Raise (KeyError submodel), s)
    end.

(** The body of [for arg in args_expected[1:]] in [update_submodels]. *)
Definition preview_arg (submodel arg : string) : M unit :=
  (to_use <- eval_in (fun s => to_use_of (parameters s) submodel arg) ;;
   e <- eval_in (fun s => get_entry (parameters s) submodel arg) ;;
   id <- eval_in (fun _ => item (e_id e) to_use) ;;
   if negb (value_eqb id (VStr "-")) then
     g <- eval_in (fun s =>
            (i <- of_option ValueError_not_in_list (index_of_string id (id_list s)) ;;
             item (p_guess s) i)%outcome) ;;
     submodel_update submodel (fun gf => (fst gf ++ str g ++ ", ", snd gf)) ;;;
     f <- eval_in (fun s =>
            (i <- of_option ValueError_not_in_list (index_of_string id (id_list s)) ;;
             item (p_fitted s) i)%outcome) ;;
     submodel_update submodel (fun gf => (fst gf, snd gf ++ str f ++ ", "))
   else
     g <- eval_in (fun _ => item (e_guess e) to_use) ;;
     submodel_update submodel (fun gf => (fst gf ++ str g ++ ", ", snd gf)) ;;;
     f <- eval_in (fun _ => item (e_fitted e) to_use) ;;
     submodel_update submodel (fun gf => (fst gf, snd gf ++ str f ++ ", ")))%method.

(** The [try: ... eval(f'__main__.{submodel_name}') ... except
    AttributeError: ... eval(submodel_name) ...] of [update_submodels]. *)
Definition signature_main_first (submodel_name : string) : outcome (list string) :=
  match signature in_main submodel_name with
  | Raise AttributeError => signature in_update_submodels submodel_name
  | o => o
  end.

(** The body of [for submodel in self.parameters] in [update_submodels]. *)
Definition preview_submodel (submodel : string) : M unit :=
  (active <- eval_in (fun s => is_active (parameters s) submodel) ;;
   if active : bool then
     modify (fun s =>
       set_self_submodel (assoc_set submodel ("", "") (self_submodel s)) s) ;;;
     let submodel_name := split_first "#" submodel in
     args_expected <- eval_in (fun _ => signature_main_first submodel_name) ;;
     submodel_update submodel
       (fun gf => (fst gf ++ submodel_name ++ "(x, ", snd gf)) ;;;
     submodel_update submodel
       (fun gf => (fst gf, snd gf ++ submodel_name ++ "(x, ")) ;;;
     for_each (tl args_expected) (preview_arg submodel) ;;;
     submodel_update submodel (fun gf => (drop_last 2 (fst gf) ++ ")", snd gf)) ;;;
     submodel_update submodel (fun gf => (fst gf, drop_last 2 (snd gf) ++ ")")) ;;;
     gf <- eval_in (fun s =>
             of_option (KeyError submodel) (assoc submodel (self_submodel s))) ;;
     py_eval ("lambda x:" ++ fst gf) ;;;
     py_eval ("lambda x:" ++ snd gf)
   else ret tt)%method.

Definition update_submodels : M unit :=
  (modify (set_self_submodel []) ;;;
   keys <- eval_in (fun s => Ok (map fst (parameters s))) ;;
   for_each keys preview_submodel)%method.

(** The start of [update_model]: empty vectors, [get_parameters], the
    [id] column cleared, the counters and [linked_parameters] reset. *)
Definition start_model : M unit :=
  (modify (fun s =>
     set_var_string "" (set_model_string ""
       (set_p_min [] (set_p_max [] (set_p_guess []
         (set_p_fitted [] (set_p_error [] s))))))) ;;;
   get_parameters ;;;
   modify (fun s => set_cells (clear_ids (cells s)) s) ;;;
   modify (fun s =>
     set_p_counter 0 (set_x_counter 0 (set_linked_parameters [] s))))%method.

(** [for submodel in self.parameters: ...]. *)
Definition assemble (fuel : nat) : M unit :=
  (keys <- eval_in (fun s => Ok (map fst (parameters s))) ;;
   for_each keys (assemble_submodel fuel))%method.

(** The block under [# finish model]: [id_list], [model_string] and
    the [eval] of the latter. *)
Definition finish_model : M unit :=
  (modify (fun s =>
     set_id_list (map strip (split "," (drop_last 2 (var_string s)))) s) ;;;
   modify (fun s =>
     set_self_model_string
       ("lambda x, " ++ drop_last 2 (var_string s) ++ ": "
          ++ drop_last 3 (model_string s)) s) ;;;
   src <- eval_in (fun s => Ok (self_model_string s)) ;;
   py_eval src)%method.

(** The first test under [# check guess, min, max]. *)
Definition check_guess : M unit :=
  (missing <- eval_in (fun s => Ok (value_in (VStr "") (p_guess s))) ;;
   if missing : bool then
     guess_missing <-
       eval_in (fun s => guess_missing_from (id_list s) 0 (p_guess s)) ;;
     raise (ValueError_no_guess guess_missing)
   else ret tt)%method.

(** The four substitutions that follow it. *)
Definition fill_defaults : M unit :=
  (modify (fun s => set_p_min (fill_empty (VInf true) (p_min s)) s) ;;;
   modify (fun s => set_p_max (fill_empty (VInf false) (p_max s)) s) ;;;
   modify (fun s => set_p_fitted (fill_empty (VInt 0) (p_fitted s)) s) ;;;
   modify (fun s => set_p_error (fill_empty (VInt 0) (p_error s)) s))%method.

(** [update_model], from its first assignment to the call of
    [update_submodels]. *)
Definition update_model (fuel : nat) : M unit :=
  (start_model ;;;
   assemble fuel ;;;
   finish_model ;;;
   check_guess ;;;
   fill_defaults ;;;
   update_submodels)%method.

(** The body of [for arg in args_expected[1:]] in the write-back of [fit]. *)
Definition write_back_arg (submodel arg : string) : M unit :=
  (to_use <- eval_in (fun s => to_use_of (parameters s) submodel arg) ;;
   e <- eval_in (fun s => get_entry (parameters s) submodel arg) ;;
   hashtag <- eval_in (fun _ => item (e_hash e) to_use) ;;
   id <- eval_in (fun _ => item (e_id e) to_use) ;;
   if negb (value_eqb id (VStr "-")) then
     v1 <- eval_in (fun s =>
             (i <- of_option ValueError_not_in_list (index_of_string id (id_list s)) ;;
              item (p_fitted s) i)%outcome) ;;
     v2 <- eval_in (fun s =>
             (i <- of_option ValueError_not_in_list (index_of_string id (id_list s)) ;;
              item (p_error s) i)%outcome) ;;
     write_cell v1 hashtag col_fitted ;;;
     write_cell v2 hashtag col_error ;;;
     assign submodel arg col_fitted to_use v1 ;;;
     assign submodel arg col_error to_use v2
   else ret tt)%method.

Definition write_back_submodel (submodel : string) : M unit :=
  (active <- eval_in (fun s => is_active (parameters s) submodel) ;;
   if active : bool then
     let submodel_name := split_first "#" submodel in
     args_expected <- eval_in (fun _ => signature in_fit submodel_name) ;;
     for_each (tl args_expected) (write_back_arg submodel)
   else ret tt)%method.

(** [fit], without the residue (a float) and the final save. *)
Definition fit (fuel : nat) : M unit :=
  (update_model fuel ;;;
   ' (fitted, errors) <- eval_in (fun s =>
       curve_fit (self_model_string s) (p_guess s) (p_min s) (p_max s)) ;;
   modify (fun s => set_p_error errors (set_p_fitted fitted s)) ;;;
   keys <- eval_in (fun s => Ok (map fst (parameters s))) ;;
   for_each keys write_back_submodel ;;;
   update_submodels)%method.

End Fitting.

(** A sheet object on which nothing has been computed yet. *)
Definition fresh (rows : list row) : self :=
  mk_self rows [] [] [] [] [] [] [] [] "" [] "" "" 0 0.

(* ================================================================== *)
(** * [fake_sigma] and [arraymanip.index]

    Numbers are rationals: the arithmetic of the two functions
    ([array - value], [abs], the comparison inside [argmin] and
    [ones * sigma]) is taken exactly, without rounding. *)

(** [np.argmin]: the first position of the least entry, scanning with
    the best position and value so far. *)
Fixpoint argmin_from (best_i : nat) (best : Q) (i : nat) (l : list Q) : nat :=
  match l with
  | [] => best_i
  | a :: l' =>
      if Qle_bool best a then argmin_from best_i best (S i) l'
      else argmin_from i a (S i) l'
  end.

Definition argmin (l : list Q) : outcome nat :=
  match l with
  | [] => Raise ValueError_empty_argmin
  | a :: l' => Ok (argmin_from 0 a 1 l')
  end.

(** [index(array, value)]: [np.argmin(np.abs(np.array(array)-value))]. *)
Definition index (array : list Q) (value : Q) : outcome nat :=
  argmin (map (fun a => Qabs (a - value)%Q) array).




(* ================================================================== *)
(** * Sheets and registries used in the examples *)

Definition blank : value := VStr "".
Definition yes : value := VStr "y".
Definition no : value := VStr "n".

(** A data row as typed by the user: the [#], [fitted], [error] and
    [id] cells still empty. *)
Definition typed (submodel arg : string) (use vary guess mn mx : value) : row :=
  mk_row blank submodel arg use vary guess mn mx blank blank blank.

(** The registry of a session in which no submodel name is bound:
    [__main__] has no attribute of that name, and the [eval] of the
    name in a method ends in [NameError]. *)
Definition no_signature : scope -> string -> outcome (list string) :=
  fun place n =>
    match place with
    | in_main => Raise AttributeError
    | _ => Raise (NameError n)
    end.

(** A registry in which one more name is bound, where the three
    methods look it up, to a function with the given parameters; an
    acceptor overridden at some texts; [only_*] start from
    [no_signature] and from the acceptor that refuses everything. *)
Definition with_signature (name : string) (args : list string)
  (signature : scope -> string -> outcome (list string))
  : scope -> string -> outcome (list string) :=
  fun place n =>
    match place with
    | in_main => signature place n
    | _ => if String.eqb n name then Ok args else signature place n
    end.

Definition accepting (texts : list string) (py_accepts : string -> bool)
  : string -> bool :=
  fun src => if existsb (String.eqb src) texts then true else py_accepts src.

Definition only_signature (name : string) (args : list string)
  : scope -> string -> outcome (list string) :=
  with_signature name args no_signature.

Definition only_accepting (texts : list string) : string -> bool :=
  accepting texts (fun _ => false).

(** Scenario 1: [gauss(x, amplitude, center)], amplitude free, center fixed. *)
Definition scenario1 : list row :=
  [ typed "gauss" "amplitude" yes yes (VInt 1) (VInt 0) (VInt 10);
    typed "gauss" "center" yes no (VInt 5) blank blank ].

Definition sig_gauss2 : scope -> string -> outcome (list string) :=
  only_signature "gauss" ["x"; "amplitude"; "center"].

(** Scenario 1 with the guess of the free amplitude left empty. *)
Definition scenario1_no_guess : list row :=
  [ typed "gauss" "amplitude" yes yes blank (VInt 0) (VInt 10);
    typed "gauss" "center" yes no (VInt 5) blank blank ].

(** One instance of [gauss(x, amplitude, center, width)]: amplitude
    free, center fixed, width as given. *)
Definition gauss3 (submodel : string) (width_vary : value) : list row :=
  [ typed submodel "amplitude" yes yes (VInt 1) blank blank;
    typed submodel "center" yes no (VInt 5) blank blank;
    typed submodel "width" yes width_vary (VInt 2) blank blank ].

Definition sig_gauss3 : scope -> string -> outcome (list string) :=
  only_signature "gauss" ["x"; "amplitude"; "center"; "width"].

(** Scenario 2 with the target [gauss#1] above the linking [gauss#2],
    and the same rows with the two submodels exchanged. *)
Definition scenario2_target_first : list row :=
  (gauss3 "gauss#1" yes ++ gauss3 "gauss#2" (VStr "gauss#1,width"))%list.

Definition scenario2_link_first : list row :=
  (gauss3 "gauss#2" (VStr "gauss#1,width") ++ gauss3 "gauss#1" yes)%list.

(** A link whose target pair is in the mapping while the submodel being
    assembled has no argument of the target's name. *)
Definition link_to_other_argument : list row :=
  [ typed "line" "slope" yes (VStr "gauss,width") (VInt 1) blank blank;
    typed "gauss" "width" yes yes (VInt 2) blank blank ].

Definition sig_line_gauss : scope -> string -> outcome (list string) :=
  with_signature "line" ["x"; "slope"] (only_signature "gauss" ["x"; "width"]).

(** A link whose target pair is not in the mapping ([gauss#1] has no
    [width]) while the submodel being assembled has a [width]. *)
Definition link_to_absent_argument : list row :=
  [ typed "gauss#2" "width" yes (VStr "gauss#1,width") (VInt 2) blank blank;
    typed "gauss#1" "amplitude" yes yes (VInt 1) blank blank ].

Definition sig_gauss_width : scope -> string -> outcome (list string) :=
  only_signature "gauss" ["x"; "width"].


(** [gauss(x, amplitude, center)] with no row at all for [center], and
    with a [center] row that is not in use. *)
Definition no_center_row : list row :=
  [ typed "gauss" "amplitude" yes yes (VInt 1) blank blank ].

Definition center_not_used : list row :=
  [ typed "gauss" "amplitude" yes yes (VInt 1) blank blank;
    typed "gauss" "center" no no (VInt 5) blank blank ].


(* ================================================================== *)
(** * Notions used in the statements *)

(** Apply [f] to every value of a dict. *)
Definition map_values {A B : Type} (f : A -> B) (d : list (string * A))
  : list (string * B) :=
  map (fun kv => (fst kv, f (snd kv))) d.

(** The columns of an entry that [update_model] and [fit] only read. *)
Definition frozen (e : entry)
  : list nat * list value * list value * list value * list value * list value :=
  (e_hash e, e_use e, e_vary e, e_guess e, e_min e, e_max e).

(** The parameter mapping without the columns that are assigned. *)
Definition skeleton (ps : params) :=
  map_values (map_values frozen) ps.



(* ================================================================== *)
(** * Notions used to describe [get_parameters] *)

(** [enumerate(l, start)]. *)
Fixpoint enumerate {A : Type} (start : nat) (l : list A) : list (nat * A) :=
  match l with
  | [] => []
  | a :: l' => (start, a) :: enumerate (S start) l'
  end.

(** A row that [get_parameters] files under [submodel]: its submodel
    cell is that name, and is not empty. *)
Definition listed_under (submodel : string) (r : row) : bool :=
  negb (String.eqb (c_submodel r) "") && String.eqb (c_submodel r) submodel.

(** The rows of one (submodel, argument) pair, each with its position
    among the data rows, from the top of the sheet down. *)
Definition rows_of (submodel arg : string) (cells : list row) : list (nat * row) :=
  filter (fun ir => listed_under submodel (snd ir) && String.eqb (c_arg (snd ir)) arg)
    (enumerate 0 cells).

(** The entry that holds the given rows, one slot per row. *)
Definition entry_of_rows (l : list (nat * row)) : entry :=
  mk_entry (map fst l)
    (map (fun ir => c_use (snd ir)) l) (map (fun ir => c_vary (snd ir)) l)
    (map (fun ir => c_guess (snd ir)) l) (map (fun ir => c_min (snd ir)) l)
    (map (fun ir => c_max (snd ir)) l) (map (fun ir => c_fitted (snd ir)) l)
    (map (fun ir => c_error (snd ir)) l) (map (fun ir => c_id (snd ir)) l).

(** The names of a list in the order in which each is first met, given
    the names met before. *)
Fixpoint first_seen (seen : list string) (l : list string) : list string :=
  match l with
  | [] => []
  | a :: l' =>
      if existsb (String.eqb a) seen then first_seen seen l'
      else a :: first_seen (seen ++ [a]) l'
  end.

(** [self.parameters[submodel][arg]] as an option. *)
Definition find_entry (ps : params) (submodel arg : string) : option entry :=
  match assoc submodel ps with
  | Some args => assoc arg args
  | None => None
  end.

(** An entry grown by further rows, as the loop of [get_parameters]
    grows it. *)
Definition grow_entry (o : option entry) (l : list (nat * row)) : option entry :=
  fold_left
    (fun o ir =>
       Some match o with
            | Some e => entry_append e (fst ir) (snd ir)
            | None => entry_of_row (fst ir) (snd ir)
            end)
    l o.

(* ================================================================== *)
(** * Notions used to describe what a method leaves alone *)

(** Whatever the outcome of [m], the state it leaves is related to the
    state it found. *)
Definition preserves (R : self -> self -> Prop) {A : Type} (m : M A) : Prop :=
  forall s, R s (snd (m s)).

(** The cells of a row that the user alone writes. *)
Definition structure (r : row) : string * string * value * value * value * value :=
  (c_submodel r, c_arg r, c_use r, c_vary r, c_min r, c_max r).

Definition same_structure (s s' : self) : Prop :=
  map structure (cells s) = map structure (cells s').


(** Everything but [self.submodel]. *)
Definition same_but_submodel (s s' : self) : Prop :=
  set_self_submodel [] s = set_self_submodel [] s'.

(** Everything but [self.id_list], [self.model_string] and
    [self.submodel], the three attributes that [update_model] does not
    reset when it starts. *)
Definition core (s : self) : self :=
  set_id_list [] (set_self_model_string "" (set_self_submodel [] s)).

Definition same_core (s s' : self) : Prop := core s = core s'.

(** Run from two related states, [m] has the same outcome, and leaves
    states related by [Qok] when it returns and by [Qfail] otherwise. *)
Definition sim (R Qok Qfail : self -> self -> Prop) {A : Type} (m : M A) : Prop :=
  forall s1 s2, R s1 s2 ->
    fst (m s1) = fst (m s2)
    /\ match fst (m s1) with
       | Ok _ => Qok (snd (m s1)) (snd (m s2))
       | _ => Qfail (snd (m s1)) (snd (m s2))
       end.

Definition respects (R : self -> self -> Prop) {A : Type} (m : M A) : Prop :=
  sim R R R m.

(** Two sheet objects whose sheets agree outside the [#] column. *)
Definition same_sheet (s s' : self) : Prop :=
  map (set_hash (VStr "")) (cells s) = map (set_hash (VStr "")) (cells s').

(** The sheet of scenario 1 in an object that has been used before:
    the rows carry stale numbers, and every attribute holds a value
    left by some earlier call. *)
Definition stale_scenario1 : self :=
  mk_self (map (set_hash (VInt 7)) scenario1)
    [("lorentz", [])] [VInt 3] [VInt 4] [VInt 5] [VInt 6] [VInt 7]
    [("lorentz,width", 2)] ["p9"] "lambda x, p9: lorentz(x, p9, )"
    [("lorentz", ("lorentz(x, 1)", "lorentz(x, 2)"))] "p9, " "lorentz(x, p9, ) + "
    4 2.

(* ================================================================== *)
(** * Notions used to describe the parameter ids *)

(** Every character of a string passes a test. *)
Fixpoint string_forall (P : ascii -> bool) (s : string) : bool :=
  match s with
  | EmptyString => true
  | String c s' => P c && string_forall P s'
  end.


(** The ids that [update_model] hands out: [p<N>] and [x<N>]. *)
Definition id_token (t : string) : Prop :=
  exists n, t = "p" ++ str_nat n \/ t = "x" ++ str_nat n.




(* ================================================================== *)
(** * Notions used to describe [update_submodels] *)

(** [[f(a) for a in l]], up to the first exception. *)
Fixpoint map_outcome {A B : Type} (f : A -> outcome B) (l : list A)
  : outcome (list B) :=
  match l with
  | [] => Ok []
  | a :: l' =>
      (b <- f a ;;
       bs <- map_outcome f l' ;;
       Ok (b :: bs))%outcome
  end.

(** The two values that stand for an argument in the previews of its
    submodel, the first in [guess_string] and the second in
    [fit_string]: the entries of [p_guess] and [p_fitted] under the id
    of the argument, or its own [guess] and [fitted] when the id is
    ['-']. *)
Definition preview_values (s : self) (submodel arg : string)
  : outcome (value * value) :=
  (to_use <- to_use_of (parameters s) submodel arg ;;
   e <- get_entry (parameters s) submodel arg ;;
   id <- item (e_id e) to_use ;;
   if negb (value_eqb id (VStr "-")) then
     i <- of_option ValueError_not_in_list (index_of_string id (id_list s)) ;;
     g <- item (p_guess s) i ;;
     f <- item (p_fitted s) i ;;
     Ok (g, f)
   else
     g <- item (e_guess e) to_use ;;
     f <- item (e_fitted e) to_use ;;
     Ok (g, f))%outcome.

(** [", v1, v2, ..."] and the call [name(x, v1, v2, ...)]. *)
Fixpoint args_text (vals : list value) : string :=
  match vals with
  | [] => ""
  | v :: vals' => ", " ++ str v ++ args_text vals'
  end.

Definition call_text (name : string) (vals : list value) : string :=
  name ++ "(x" ++ args_text vals ++ ")".

(** The pair [(guess_string, fit_string)] of a submodel. *)
Definition preview_texts (signature : scope -> string -> outcome (list string))
  (s : self) (submodel : string) : outcome (string * string) :=
  let submodel_name := split_first "#" submodel in
  (args_expected <- signature_main_first signature submodel_name ;;
   gfs <- map_outcome (preview_values s submodel) (tl args_expected) ;;
   Ok (call_text submodel_name (map fst gfs), call_text submodel_name (map snd gfs)))%outcome.

(** ["v1, v2, ..., "], as the loop over the arguments appends it. *)
Fixpoint vals_text (vals : list value) : string :=
  match vals with
  | [] => ""
  | v :: vals' => str v ++ ", " ++ vals_text vals'
  end.

(** [self.submodel[submodel] = gf]. *)
Definition with_entry (submodel : string) (gf : string * string) (s : self) : self :=
  set_self_submodel (assoc_set submodel gf (self_submodel s)) s.

(* ================================================================== *)
(** * Notions used to describe the sheet that a method is given *)

(** A row whose [use] cell is ['y']. *)
Definition in_use (r : row) : bool := value_eqb (c_use r) (VStr "y").

(** The use-case of a (submodel, argument) pair that counts: the first
    row of the pair, from the top of the sheet down, that is in use,
    with its position among the data rows. *)
Definition selected (submodel arg : string) (cells : list row) : option (nat * row) :=
  find (fun ir => in_use (snd ir)) (rows_of submodel arg cells).

(** A submodel with a row in use. *)
Definition active (submodel : string) (cells : list row) : bool :=
  existsb (fun r => listed_under submodel r && in_use r) cells.

(** No submodel but [submodel] has a row in use: every row in use
    names [submodel], or has an empty submodel cell. *)
Definition only_active (submodel : string) (cells : list row) : bool :=
  forallb
    (fun r => negb (in_use r) || String.eqb (c_submodel r) ""
              || String.eqb (c_submodel r) submodel)
    cells.

(** ['y' in [...]] over the use-cases of the arguments of a submodel. *)
Definition any_use (args : arguments) : bool :=
  existsb (fun ae => value_in (VStr "y") (e_use (snd ae))) args.

(** What [if '' in l: l = [d if x == '' else x for x in l]] makes of
    one entry. *)
Definition or_default (d v : value) : value :=
  if value_eqb v (VStr "") then d else v.

(** [any_use] of the arguments filed under a submodel, if any. *)
Definition any_use_of (ps : params) (submodel : string) : bool :=
  match assoc submodel ps with
  | Some args => any_use args
  | None => false
  end.

(** One entry of the mapping replaced. *)
Definition with_param (submodel arg : string) (e : entry) (ps : params) : params :=
  match assoc submodel ps with
  | Some args => assoc_set submodel (assoc_set arg e args) ps
  | None => ps
  end.

(** The entry of an argument after [update_model] has given the
    use-case [to_use] an id, and after it has treated it as fixed at
    [v]. *)
Definition entry_with_id (id : value) (to_use : nat) (e : entry) : entry :=
  set_entry_column col_id (list_set to_use id (e_id e)) e.

Definition entry_fixed (v : value) (to_use : nat) (e : entry) : entry :=
  mk_entry (e_hash e) (e_use e) (e_vary e) (e_guess e) (e_min e) (e_max e)
    (list_set to_use v (e_fitted e)) (list_set to_use (VInt 0) (e_error e))
    (list_set to_use (VStr "-") (e_id e)).

(** Scenario 1 in a sheet that has been in use: a row without a
    submodel, a submodel that is not in use, an [amplitude] use-case
    that is not in use above the one that is, a row for an argument
    that [gauss] does not take, and cells and attributes that earlier
    calls have left behind. *)
Definition amplitude_in_use : row :=
  mk_row (VInt 7) "gauss" "amplitude" yes yes (VInt 1) (VInt 0) (VInt 10)
    (VInt 3) (VInt 2) (VStr "p1").

Definition center_in_use : row :=
  mk_row blank "gauss" "center" yes no (VInt 5) blank blank blank blank (VStr "x0").

Definition scenario1_in_use : self :=
  mk_self
    [ mk_row (VInt 3) "" "" blank blank blank blank blank blank blank blank;
      mk_row (VInt 0) "lorentz" "width" no yes (VInt 2) blank blank
        (VInt 7) (VInt 1) (VStr "p0");
      mk_row blank "gauss" "amplitude" no yes (VInt 8) (VInt 2) (VInt 9)
        blank blank (VStr "p0");
      amplitude_in_use;
      center_in_use;
      mk_row blank "gauss" "width" no no (VInt 4) blank blank blank blank blank ]
    [("lorentz", [])] [VInt 3] [VInt 4] [VInt 5] [VInt 6] [VInt 7]
    [("lorentz,width", 2)] ["p9"] "lambda x, p9: lorentz(x, p9, )"
    [("lorentz", ("lorentz(x, 1)", "lorentz(x, 2)"))] "p9, " "lorentz(x, p9, ) + "
    4 2.

Definition accepting_in_use : string -> bool :=
  only_accepting
    [ "lambda x, p0: gauss(x, p0, 5, )";
      "lambda x:gauss(x, 1, 5)";
      "lambda x:gauss(x, 3, 5)" ].

(* ================================================================== *)
(** * Notions used to describe the validation *)


(** The ids that stand in [id_list] where [p_guess] is empty. *)
Definition guess_missing (ids : list string) (guess : list value) : list string :=
  map fst (filter (fun ig => value_eqb (snd ig) (VStr "")) (combine ids guess)).


(* ================================================================== *)
(** * Notions used to describe what a call writes to the sheet *)

(** What an [id] cell holds once [update_model] has cleared the
    column: nothing, the mark ['-'] of a fixed argument, or an id. *)
Definition id_cell (v : value) : Prop :=
  v = VStr "" \/ v = VStr "-" \/ exists t, id_token t /\ v = VStr t.

Definition ids_rewritten (s : self) : Prop :=
  Forall (fun r => id_cell (c_id r)) (cells s).

(** The [#] cells of two sheet objects agree. *)
Definition same_hash (s s' : self) : Prop :=
  map c_hash (cells s) = map c_hash (cells s').

(** [np.arange(0, n)] as cell values. *)
Definition row_numbers (n : nat) : list value :=
  map (fun i => VInt (Z.of_nat i)) (seq 0 n).

Definition keeps_ids (s s' : self) : Prop := ids_rewritten s -> ids_rewritten s'.

(* ================================================================== *)
(** * Notions used to describe a link chain that never ends *)



(* ================================================================== *)
(** * Notions used to describe [fake_sigma] *)




(* ================================================================== *)
(** * The registry and [eval] only matter where they are consulted *)

Lemma bind_ext {A B : Type} (m m' : M A) (k k' : A -> M B) :
  (forall s, m s = m' s) -> (forall a s, k a s = k' a s) ->
  forall s, bind m k s = bind m' k' s.
Proof.
  intros Hm Hk s. unfold bind. rewrite Hm.
  destruct (m' s) as [[a | e |] s']; auto.
Qed.

Lemma for_each_ext {A : Type} (f g : A -> M unit) :
  (forall a s, f a s = g a s) ->
  forall l s, for_each l f s = for_each l g s.
Proof.
  intros Hfg l. induction l as [| a l IH]; intros s; simpl.
  - reflexivity.
  - apply bind_ext; auto.
Qed.

Section Extensionality.

Variables signature signature' : scope -> string -> outcome (list string).
Variables py_accepts py_accepts' : string -> bool.
Hypothesis Hsig : forall place n, signature place n = signature' place n.
Hypothesis Hacc : forall src, py_accepts src = py_accepts' src.

Lemma py_eval_ext src s : py_eval py_accepts src s = py_eval py_accepts' src s.
Proof. unfold py_eval. rewrite Hacc. reflexivity. Qed.

Lemma assemble_submodel_ext fuel submodel s :
  assemble_submodel signature fuel submodel s
  = assemble_submodel signature' fuel submodel s.
Proof. unfold assemble_submodel. rewrite Hsig. reflexivity. Qed.

Lemma preview_submodel_ext submodel s :
  preview_submodel signature py_accepts submodel s
  = preview_submodel signature' py_accepts' submodel s.
Proof.
  unfold preview_submodel, signature_main_first. rewrite !Hsig.
  apply bind_ext; [reflexivity |]. intros [|] s0; [| reflexivity].
  repeat (apply bind_ext; [reflexivity | intros ? ?]).
  apply bind_ext; [apply py_eval_ext | intros ? ?]. apply py_eval_ext.
Qed.

Lemma update_submodels_ext s :
  update_submodels signature py_accepts s
  = update_submodels signature' py_accepts' s.
Proof.
  unfold update_submodels.
  repeat (apply bind_ext; [reflexivity | intros ? ?]).
  apply for_each_ext. apply preview_submodel_ext.
Qed.

Lemma update_model_ext fuel s :
  update_model signature py_accepts fuel s
  = update_model signature' py_accepts' fuel s.
Proof.
  unfold update_model.
  apply bind_ext; [reflexivity | intros ? ?].
  apply bind_ext; [| intros ? ?].
  { intros t. unfold assemble. apply bind_ext; [reflexivity | intros ? ?].
    apply for_each_ext. apply assemble_submodel_ext. }
  apply bind_ext; [| intros ? ?].
  { intros t. unfold finish_model.
    repeat (apply bind_ext; [reflexivity | intros ? ?]). apply py_eval_ext. }
  do 2 (apply bind_ext; [reflexivity | intros ? ?]).
  apply update_submodels_ext.
Qed.

End Extensionality.

(* ================================================================== *)
(** * Running a method step by step *)

Lemma bind_eval_in {A B : Type} (f : self -> outcome A) (k : A -> M B) s :
  bind (eval_in f) k s
  = match f s with
    | Ok a => k a s
    | Raise e => (Raise e, s)
    | Diverge => (Diverge, s)
    end.
Proof. unfold bind, eval_in. destruct (f s); reflexivity. Qed.

Lemma bind_modify {B : Type} (f : self -> self) (k : unit -> M B) s :
  bind (modify f) k s = k tt (f s).
Proof. reflexivity. Qed.

Lemma bind_ret {A B : Type} (a : A) (k : A -> M B) s : bind (ret a) k s = k a s.
Proof. reflexivity. Qed.

Lemma bind_raise {A B : Type} (e : exn) (k : A -> M B) s :
  bind (raise e) k s = (Raise e, s).
Proof. reflexivity. Qed.

Lemma bind_ok {A B : Type} (m : M A) (k : A -> M B) s a s' :
  m s = (Ok a, s') -> bind m k s = k a s'.
Proof. intros H. unfold bind. rewrite H. reflexivity. Qed.



Lemma bind_assoc {A B C : Type} (m : M A) (k : A -> M B) (h : B -> M C) s :
  bind (bind m k) h s = bind m (fun a => bind (k a) h) s.
Proof. unfold bind. destruct (m s) as [[a | e |] s']; reflexivity. Qed.


Lemma for_each_app {A : Type} (l1 l2 : list A) (f : A -> M unit) s :
  for_each (l1 ++ l2) f s = bind (for_each l1 f) (fun _ => for_each l2 f) s.
Proof.
  revert s. induction l1 as [| a l1 IH]; intros s; simpl.
  - reflexivity.
  - rewrite bind_assoc. apply bind_ext; auto.
Qed.

(* ================================================================== *)
(** * The link loop *)





(* ================================================================== *)
(** * The end-to-end scenarios *)

(** C2, evaluated where it fails.  With the target [gauss#1] above the
    linking [gauss#2], the target's width has already been given the
    fresh identifier [p2] when the link is met; the link then receives
    [x0], which is no parameter of the lambda and is not in [id_list],
    and [update_submodels] stops on [id_list.index('x0')]. *)
Theorem scenario2_target_first_not_shared fuel :
  let (o, s) :=
    update_model sig_gauss3
      (only_accepting
         ["lambda x, p0, p1, p2: gauss(x, p0, 5, p1, ) + gauss(x, p2, 5, x0, )";
          "lambda x:gauss(x, 1, 5, 2)"; "lambda x:gauss(x, 0, 5, 0)"])
      fuel (fresh scenario2_target_first) in
  o = Raise ValueError_not_in_list
  /\ self_model_string s
     = "lambda x, p0, p1, p2: gauss(x, p0, 5, p1, ) + gauss(x, p2, 5, x0, )"
  /\ id_list s = ["p0"; "p1"; "p2"]
  /\ map c_id (cells s)
     = [VStr "p0"; VStr "-"; VStr "p1"; VStr "p2"; VStr "-"; VStr "x0"]
  /\ p_guess s = [VInt 1; VInt 2; VInt 1].
Proof. destruct fuel; vm_compute; repeat split. Qed.

(** The same rows with the linking submodel first: here the code does
    what the scenario asks, one [x0] in both argument lists and one
    width entry (the last) in the guess vector. *)
Lemma scenario2_link_first_shared fuel :
  let (o, s) :=
    update_model sig_gauss3
      (only_accepting
         ["lambda x, p0, p1, x0: gauss(x, p0, 5, x0, ) + gauss(x, p1, 5, x0, )";
          "lambda x:gauss(x, 1, 5, 2)"; "lambda x:gauss(x, 0, 5, 0)"])
      fuel (fresh scenario2_link_first) in
  o = Ok tt
  /\ self_model_string s
     = "lambda x, p0, p1, x0: gauss(x, p0, 5, x0, ) + gauss(x, p1, 5, x0, )"
  /\ id_list s = ["p0"; "p1"; "x0"]
  /\ map c_id (cells s)
     = [VStr "p0"; VStr "-"; VStr "x0"; VStr "p1"; VStr "-"; VStr "x0"]
  /\ p_guess s = [VInt 1; VInt 1; VInt 2].
Proof. destruct fuel; vm_compute; repeat split. Qed.

(** C3, evaluated where it fails.  The presence test reads
    [arg2link in self.parameters[submodel]], the submodel being
    assembled, not the target: a target pair that is in the mapping is
    reported as not found when the linking submodel has no argument of
    that name, and a target pair that is not in the mapping passes the
    test and ends in a bare [KeyError]. *)
Theorem link_presence_test_wrong_submodel py_accepts fuel :
  get_entry (scan_rows [] 0 link_to_other_argument) "gauss" "width"
  = Ok (entry_of_row 1 (typed "gauss" "width" yes yes (VInt 2) blank blank))
  /\ fst (update_model sig_line_gauss py_accepts fuel (fresh link_to_other_argument))
     = Raise (ValueError_cannot_find "gauss" "width")
  /\ get_entry (scan_rows [] 0 link_to_absent_argument) "gauss#1" "width"
     = Raise (KeyError "width")
  /\ fst (update_model sig_gauss_width py_accepts fuel (fresh link_to_absent_argument))
     = Raise (KeyError "width").
Proof. destruct fuel; vm_compute; repeat split. Qed.

(** C6, evaluated where it fails.  The handler around
    [...['use'].index('y')] catches [ValueError] only: a required
    argument with a row that is not in use gives [MissingArgument], a
    required argument with no row at all gives [KeyError]. *)
Theorem missing_argument_without_row py_accepts fuel :
  fst (update_model sig_gauss2 py_accepts fuel (fresh no_center_row))
  = Raise (KeyError "center")
  /\ fst (update_model sig_gauss2 py_accepts fuel (fresh center_not_used))
     = Raise (MissingArgument "gauss" "center").
Proof. destruct fuel; vm_compute; repeat split. Qed.


(** C8, the claim refuted.  With the guess of the free amplitude empty
    the call ends in the missing-guess error, and the sheet it leaves
    is not the sheet it was given: the [#] column is numbered, the
    [id] cells hold [p0] and [-], and the fixed center has its
    [fitted] and [error] cells written. *)
Lemma missing_guess_leaves_writes :
  let (o, s) :=
    update_model sig_gauss2 (only_accepting ["lambda x, p0: gauss(x, p0, 5, )"])
      0 (fresh scenario1_no_guess) in
  o = Raise (ValueError_no_guess ["p0"])
  /\ cells s <> scenario1_no_guess
  /\ cells s
     = [ mk_row (VInt 0) "gauss" "amplitude" yes yes blank (VInt 0) (VInt 10)
           blank blank (VStr "p0");
         mk_row (VInt 1) "gauss" "center" yes no (VInt 5) blank blank
           (VInt 5) (VInt 0) (VStr "-") ].
Proof. vm_compute. repeat split. discriminate. Qed.

(* ================================================================== *)
(** * Dicts *)

Lemma assoc_set_same {A : Type} k (a : A) d : assoc k (assoc_set k a d) = Some a.
Proof.
  induction d as [| [k' a'] d IH]; simpl.
  - rewrite String.eqb_refl. reflexivity.
  - destruct (String.eqb k' k) eqn:E; simpl; rewrite E; auto.
Qed.

Lemma assoc_set_other {A : Type} k k' (a : A) d :
  k' <> k -> assoc k' (assoc_set k a d) = assoc k' d.
Proof.
  intros Hk. induction d as [| [k0 a0] d IH]; simpl.
  - destruct (String.eqb_spec k k'); congruence.
  - destruct (String.eqb_spec k0 k); simpl.
    + subst k0. destruct (String.eqb_spec k k'); congruence.
    + destruct (String.eqb k0 k'); auto.
Qed.

Lemma assoc_set_keys {A : Type} k (a a' : A) d :
  assoc k d = Some a' -> map fst (assoc_set k a d) = map fst d.
Proof.
  induction d as [| [k0 a0] d IH]; simpl; intros H.
  - discriminate.
  - destruct (String.eqb k0 k); simpl; [reflexivity | f_equal; auto].
Qed.

Lemma assoc_in_keys {A : Type} k (a : A) d : assoc k d = Some a -> In k (map fst d).
Proof.
  induction d as [| [k0 a0] d IH]; simpl; intros H.
  - discriminate.
  - destruct (String.eqb_spec k0 k); auto.
Qed.

Lemma assoc_map_values {A B : Type} (f : A -> B) k d :
  assoc k (map_values f d) = option_map f (assoc k d).
Proof.
  induction d as [| [k0 a0] d IH]; simpl; auto.
  destruct (String.eqb k0 k); auto.
Qed.

Lemma assoc_set_map_values {A B : Type} (f : A -> B) k a d :
  assoc_set k (f a) (map_values f d) = map_values f (assoc_set k a d).
Proof.
  induction d as [| [k0 a0] d IH]; simpl; auto.
  destruct (String.eqb k0 k); simpl; [reflexivity | f_equal; auto].
Qed.

Lemma map_values_keys {A B : Type} (f : A -> B) d :
  map fst (map_values f d) = map fst d.
Proof. unfold map_values. rewrite map_map. reflexivity. Qed.

(** Overwriting a value by one with the same image leaves the image of
    the dict alone. *)
Lemma map_values_assoc_set {A B : Type} (f : A -> B) k a a' d :
  assoc k d = Some a' -> f a = f a' ->
  map_values f (assoc_set k a d) = map_values f d.
Proof.
  induction d as [| [k0 a0] d IH]; simpl; intros H Hf.
  - discriminate.
  - destruct (String.eqb k0 k); simpl.
    + inversion H; subst. rewrite Hf. reflexivity.
    + f_equal. auto.
Qed.

(* ================================================================== *)
(** * What the assignments leave alone *)



(** What a skeleton determines. *)
Lemma skeleton_args ps ps' submodel :
  skeleton ps = skeleton ps' ->
  option_map (map_values frozen) (assoc submodel ps)
  = option_map (map_values frozen) (assoc submodel ps').
Proof.
  intros H. unfold skeleton in H.
  rewrite <- !assoc_map_values. rewrite H. reflexivity.
Qed.

Lemma skeleton_entry ps ps' submodel arg :
  skeleton ps = skeleton ps' ->
  match get_entry ps submodel arg, get_entry ps' submodel arg with
  | Ok e, Ok e' => frozen e = frozen e'
  | Raise x, Raise y => x = y
  | _, _ => False
  end.
Proof.
  intros H. apply skeleton_args with (submodel := submodel) in H.
  unfold get_entry.
  destruct (assoc submodel ps) as [args |], (assoc submodel ps') as [args' |];
    simpl in *; try discriminate; auto.
  inversion H as [H'].
  assert (Ha : option_map frozen (assoc arg args)
               = option_map frozen (assoc arg args')).
  { rewrite <- !assoc_map_values. rewrite H'. reflexivity. }
  destruct (assoc arg args), (assoc arg args'); simpl in *;
    try discriminate; auto.
  congruence.
Qed.

Lemma skeleton_keys ps ps' :
  skeleton ps = skeleton ps' -> map fst ps = map fst ps'.
Proof.
  intros H. unfold skeleton in H.
  transitivity (map fst (map_values (map_values frozen) ps)).
  - symmetry. apply map_values_keys.
  - rewrite H. apply map_values_keys.
Qed.


Lemma skeleton_use_index ps ps' submodel arg :
  skeleton ps = skeleton ps' ->
  use_index ps submodel arg = use_index ps' submodel arg.
Proof.
  intros H. pose proof (skeleton_entry _ _ submodel arg H) as He.
  unfold use_index.
  destruct (get_entry ps submodel arg) as [e | x |],
           (get_entry ps' submodel arg) as [e' | y |];
    simpl; try contradiction; try congruence.
  inversion He. congruence.
Qed.

Lemma skeleton_to_use_of ps ps' submodel arg :
  skeleton ps = skeleton ps' ->
  to_use_of ps submodel arg = to_use_of ps' submodel arg.
Proof.
  intros H. unfold to_use_of. rewrite (skeleton_use_index _ _ _ _ H).
  reflexivity.
Qed.

Lemma skeleton_is_active ps ps' submodel :
  skeleton ps = skeleton ps' ->
  is_active ps submodel = is_active ps' submodel.
Proof.
  intros H. apply skeleton_args with (submodel := submodel) in H.
  unfold is_active.
  destruct (assoc submodel ps) as [args |], (assoc submodel ps') as [args' |];
    simpl in *; try discriminate; auto.
  inversion H as [H']. f_equal. clear H.
  revert args' H'. induction args as [| [a e] args IH]; intros [| [a' e'] args'];
    simpl; intros H; try discriminate; auto.
  injection H as Hk Hh Hu Hv Hg Hmn Hmx Ht.
  rewrite Hu, (IH _ Ht). reflexivity.
Qed.




(* ================================================================== *)
(** * [get_parameters] *)

Lemma number_rows_length n cells : List.length (number_rows n cells) = List.length cells.
Proof.
  revert n. induction cells as [| r cells IH]; intros n; simpl; [| rewrite IH]; reflexivity.
Qed.

Lemma number_rows_nth n cells i r :
  nth_error cells i = Some r ->
  nth_error (number_rows n cells) i = Some (set_hash (VInt (Z.of_nat (n + i))) r).
Proof.
  revert n i. induction cells as [| a cells IH]; intros n i H.
  - destruct i; discriminate.
  - destruct i as [| i]; simpl in *.
    + injection H as ->. rewrite Nat.add_0_r. reflexivity.
    + rewrite (IH (S n) i H). rewrite Nat.add_succ_r. reflexivity.
Qed.

Lemma number_rows_again n m cells :
  number_rows n (number_rows m cells) = number_rows n cells.
Proof.
  revert n m. induction cells as [| r cells IH]; intros n m; simpl.
  - reflexivity.
  - rewrite IH. reflexivity.
Qed.

Lemma add_row_set_hash ps n v r : add_row ps n (set_hash v r) = add_row ps n r.
Proof. reflexivity. Qed.

Lemma scan_rows_numbered ps n m cells :
  scan_rows ps n (number_rows m cells) = scan_rows ps n cells.
Proof.
  revert ps n m. induction cells as [| r cells IH]; intros ps n m; simpl.
  - reflexivity.
  - rewrite add_row_set_hash. apply IH.
Qed.

Lemma get_entry_find ps submodel arg :
  get_entry ps submodel arg
  = match find_entry ps submodel arg with
    | Some e => Ok e
    | None => Raise (KeyError (if has_key submodel ps then arg else submodel))
    end.
Proof.
  unfold get_entry, find_entry, has_key.
  destruct (assoc submodel ps) as [args |]; simpl; [| reflexivity].
  destruct (assoc arg args); reflexivity.
Qed.

Lemma has_key_assoc_set {A : Type} k k' (a : A) d :
  has_key k (assoc_set k' a d) = String.eqb k' k || has_key k d.
Proof.
  unfold has_key. destruct (String.eqb k' k) eqn:E.
  - apply String.eqb_eq in E. subst k'. rewrite assoc_set_same. reflexivity.
  - apply String.eqb_neq in E. rewrite assoc_set_other by congruence. reflexivity.
Qed.

Lemma has_key_add_row ps n r submodel :
  has_key submodel (add_row ps n r) = has_key submodel ps || listed_under submodel r.
Proof.
  unfold add_row, listed_under.
  destruct (String.eqb (c_submodel r) "") eqn:Eb; simpl.
  - rewrite orb_false_r. reflexivity.
  - destruct (assoc (c_submodel r) ps) as [args |] eqn:Ea.
    + assert (Hk : has_key (c_submodel r) ps = true) by (unfold has_key; rewrite Ea; reflexivity).
      destruct (assoc (c_arg r) args); rewrite has_key_assoc_set;
        destruct (String.eqb (c_submodel r) submodel) eqn:E;
        try (apply String.eqb_eq in E; subst submodel; rewrite Hk); simpl;
        try rewrite orb_false_r; reflexivity.
    + rewrite has_key_assoc_set. apply orb_comm.
Qed.

Lemma has_key_scan_rows ps n cells submodel :
  has_key submodel (scan_rows ps n cells)
  = has_key submodel ps || existsb (listed_under submodel) cells.
Proof.
  revert ps n. induction cells as [| r cells IH]; intros ps n; simpl.
  - rewrite orb_false_r. reflexivity.
  - rewrite IH, has_key_add_row, orb_assoc. reflexivity.
Qed.

(** One row either grows the entry of its own pair or leaves an entry
    alone. *)
Lemma find_entry_add_row ps n r submodel arg :
  find_entry (add_row ps n r) submodel arg
  = if listed_under submodel r && String.eqb (c_arg r) arg
    then grow_entry (find_entry ps submodel arg) [(n, r)]
    else find_entry ps submodel arg.
Proof.
  unfold add_row, listed_under, find_entry, grow_entry.
  destruct (String.eqb (c_submodel r) "") eqn:Eb; simpl; [reflexivity |].
  destruct (String.eqb (c_submodel r) submodel) eqn:Es; simpl.
  - apply String.eqb_eq in Es. subst submodel.
    destruct (assoc (c_submodel r) ps) as [args |] eqn:Ea.
    + destruct (String.eqb (c_arg r) arg) eqn:Eg.
      * apply String.eqb_eq in Eg. subst arg.
        destruct (assoc (c_arg r) args) as [e |] eqn:Ee;
          rewrite assoc_set_same, assoc_set_same; reflexivity.
      * apply String.eqb_neq in Eg.
        destruct (assoc (c_arg r) args) as [e |] eqn:Ee;
          rewrite assoc_set_same, assoc_set_other by congruence; reflexivity.
    + rewrite assoc_set_same. simpl.
      destruct (String.eqb (c_arg r) arg); reflexivity.
  - apply String.eqb_neq in Es.
    destruct (assoc (c_submodel r) ps) as [args |] eqn:Ea.
    + destruct (assoc (c_arg r) args); rewrite assoc_set_other by congruence; reflexivity.
    + rewrite assoc_set_other by congruence. reflexivity.
Qed.

Lemma grow_entry_app o l1 l2 :
  grow_entry o (l1 ++ l2) = grow_entry (grow_entry o l1) l2.
Proof. unfold grow_entry. apply fold_left_app. Qed.

Lemma find_entry_scan_rows ps n cells submodel arg :
  find_entry (scan_rows ps n cells) submodel arg
  = grow_entry (find_entry ps submodel arg)
      (filter (fun ir => listed_under submodel (snd ir) && String.eqb (c_arg (snd ir)) arg)
         (enumerate n cells)).
Proof.
  revert ps n. induction cells as [| r cells IH]; intros ps n; simpl.
  - reflexivity.
  - rewrite IH, find_entry_add_row.
    destruct (listed_under submodel r && String.eqb (c_arg r) arg); reflexivity.
Qed.

Lemma entry_append_of_rows l n r :
  entry_append (entry_of_rows l) n r = entry_of_rows (l ++ [(n, r)]).
Proof. unfold entry_append, entry_of_rows. simpl. rewrite !map_app. reflexivity. Qed.

Lemma grow_entry_of_rows l0 l :
  grow_entry (Some (entry_of_rows l0)) l = Some (entry_of_rows (l0 ++ l)).
Proof.
  revert l0. induction l as [| [n r] l IH]; intros l0.
  - rewrite app_nil_r. reflexivity.
  - change (grow_entry (Some (entry_of_rows l0)) ((n, r) :: l))
      with (grow_entry (Some (entry_append (entry_of_rows l0) n r)) l).
    rewrite entry_append_of_rows, IH, <- app_assoc. reflexivity.
Qed.

Lemma grow_entry_none l :
  grow_entry None l = match l with [] => None | _ => Some (entry_of_rows l) end.
Proof.
  destruct l as [| [n r] l]; [reflexivity |].
  change (grow_entry None ((n, r) :: l))
    with (grow_entry (Some (entry_of_rows [(n, r)])) l).
  apply grow_entry_of_rows.
Qed.

Lemma find_entry_get_parameters cells submodel arg :
  find_entry (scan_rows [] 0 (number_rows 0 cells)) submodel arg
  = match rows_of submodel arg cells with
    | [] => None
    | l => Some (entry_of_rows l)
    end.
Proof.
  rewrite scan_rows_numbered, find_entry_scan_rows.
  change (find_entry [] submodel arg) with (@None entry).
  rewrite grow_entry_none. fold (rows_of submodel arg cells).
  destruct (rows_of submodel arg cells); reflexivity.
Qed.

(** X1. [get_parameters] files the rows by (submodel, argument):
    looking a pair up gives, column by column and top row first, the
    rows of the sheet that carry the pair, with their positions in
    [#]; a pair without rows is a [KeyError], on the submodel when no
    row names it (an empty submodel cell names none) and on the
    argument otherwise. *)
Theorem get_parameters_lookup s submodel arg :
  get_entry (parameters (snd (get_parameters s))) submodel arg
  = match rows_of submodel arg (cells s) with
    | [] => Raise (KeyError (if existsb (listed_under submodel) (cells s)
                             then arg else submodel))
    | l => Ok (entry_of_rows l)
    end.
Proof.
  unfold get_parameters, modify. simpl.
  rewrite get_entry_find, find_entry_get_parameters.
  destruct (rows_of submodel arg (cells s)); [| reflexivity].
  rewrite scan_rows_numbered, has_key_scan_rows. reflexivity.
Qed.

Lemma assoc_set_new_key {A : Type} k (a : A) d :
  assoc k d = None -> map fst (assoc_set k a d) = (map fst d ++ [k])%list.
Proof.
  induction d as [| [k0 a0] d IH]; simpl; intros H.
  - reflexivity.
  - destruct (String.eqb k0 k); [discriminate |]. simpl. f_equal. auto.
Qed.

Lemma has_key_in_keys {A : Type} k (d : list (string * A)) :
  existsb (String.eqb k) (map fst d) = has_key k d.
Proof.
  unfold has_key. induction d as [| [k0 a0] d IH]; simpl.
  - reflexivity.
  - rewrite (String.eqb_sym k k0). destruct (String.eqb k0 k); simpl; auto.
Qed.

Lemma add_row_keys ps n r :
  map fst (add_row ps n r)
  = if String.eqb (c_submodel r) "" then map fst ps
    else if has_key (c_submodel r) ps then map fst ps
    else (map fst ps ++ [c_submodel r])%list.
Proof.
  unfold add_row, has_key.
  destruct (String.eqb (c_submodel r) ""); [reflexivity |].
  destruct (assoc (c_submodel r) ps) as [args |] eqn:Ea.
  - destruct (assoc (c_arg r) args); eapply assoc_set_keys; eauto.
  - apply assoc_set_new_key. exact Ea.
Qed.

Lemma scan_rows_keys ps n cells :
  map fst (scan_rows ps n cells)
  = (map fst ps
     ++ first_seen (map fst ps)
          (filter (fun name => negb (String.eqb name "")) (map c_submodel cells)))%list.
Proof.
  revert ps n. induction cells as [| r cells IH]; intros ps n; simpl.
  - rewrite app_nil_r. reflexivity.
  - rewrite IH, add_row_keys.
    destruct (String.eqb (c_submodel r) ""); simpl; [reflexivity |].
    rewrite has_key_in_keys.
    destruct (has_key (c_submodel r) ps); [reflexivity |].
    rewrite <- app_assoc. reflexivity.
Qed.

(** X2.  The submodels of the parameter mapping, which [update_model]
    walks in dict order to assemble the terms of the model, come in
    the order in which the sheet first names them, each once; empty
    submodel cells name nothing. *)
Theorem get_parameters_key_order s :
  map fst (parameters (snd (get_parameters s)))
  = first_seen []
      (filter (fun name => negb (String.eqb name "")) (map c_submodel (cells s))).
Proof.
  unfold get_parameters, modify. simpl.
  rewrite scan_rows_numbered, scan_rows_keys. reflexivity.
Qed.

(** X3.  [get_parameters] always returns; it keeps the number of rows,
    writes the position of each data row, counted from 0, in its [#]
    cell and leaves the other cells alone; run again on its own
    result it changes nothing. *)
Theorem get_parameters_numbering s :
  let s' := snd (get_parameters s) in
  fst (get_parameters s) = Ok tt
  /\ List.length (cells s') = List.length (cells s)
  /\ (forall i r, nth_error (cells s) i = Some r ->
        nth_error (cells s') i = Some (set_hash (VInt (Z.of_nat i)) r))
  /\ get_parameters s' = (Ok tt, s').
Proof.
  unfold get_parameters, modify. simpl. repeat split.
  - apply number_rows_length.
  - intros i r H. apply (number_rows_nth 0 _ _ _ H).
  - rewrite number_rows_again. reflexivity.
Qed.

(* ================================================================== *)
(** * What a method leaves alone *)

Lemma preserves_bind R {A B : Type} (m : M A) (k : A -> M B) :
  (forall s1 s2 s3, R s1 s2 -> R s2 s3 -> R s1 s3) ->
  preserves R m -> (forall a, preserves R (k a)) -> preserves R (bind m k).
Proof.
  intros Htrans Hm Hk s. unfold bind. specialize (Hm s).
  destruct (m s) as [[a | e |] s1]; simpl in *; auto.
  eapply Htrans; [exact Hm | apply Hk].
Qed.

Lemma preserves_ret R {A : Type} (a : A) :
  (forall s, R s s) -> preserves R (ret a).
Proof. intros Hrefl s. apply Hrefl. Qed.

Lemma preserves_raise R {A : Type} (e : exn) :
  (forall s, R s s) -> preserves R (@raise A e).
Proof. intros Hrefl s. apply Hrefl. Qed.

Lemma preserves_eval_in R {A : Type} (f : self -> outcome A) :
  (forall s, R s s) -> preserves R (eval_in f).
Proof. intros Hrefl s. apply Hrefl. Qed.

Lemma preserves_modify R (f : self -> self) :
  (forall s, R s (f s)) -> preserves R (modify f).
Proof. intros H s. apply H. Qed.

Lemma preserves_for_each R {A : Type} (f : A -> M unit) l :
  (forall s, R s s) -> (forall s1 s2 s3, R s1 s2 -> R s2 s3 -> R s1 s3) ->
  (forall a, preserves R (f a)) -> preserves R (for_each l f).
Proof.
  intros Hrefl Htrans Hf. induction l as [| a l IH]; simpl.
  - apply preserves_ret, Hrefl.
  - apply preserves_bind; auto.
Qed.

Lemma preserves_py_eval R py_accepts src :
  (forall s, R s s) -> preserves R (py_eval py_accepts src).
Proof. intros Hrefl s. unfold py_eval. destruct (py_accepts src); apply Hrefl. Qed.

(** Take a method apart down to its elementary steps; [leaf] settles
    the steps that change the state. *)
Ltac peel Hrefl Htrans leaf :=
  repeat first
    [ apply (preserves_ret _ _ Hrefl)
    | apply (preserves_raise _ _ Hrefl)
    | apply (preserves_eval_in _ _ Hrefl)
    | apply (preserves_py_eval _ _ _ Hrefl)
    | leaf
    | apply (preserves_for_each _ _ _ Hrefl Htrans); intros ?
    | apply (fun m k => preserves_bind _ m k Htrans); [| intros ?]
    | match goal with
      | |- preserves _ (if ?b then _ else _) => destruct b
      | |- preserves _ (match ?x with _ => _ end) => destruct x
      end ].

(* ------------------------------------------------------------------ *)
(** ** The structure of the sheet *)

Lemma same_structure_refl s : same_structure s s.
Proof. reflexivity. Qed.

Lemma same_structure_trans s1 s2 s3 :
  same_structure s1 s2 -> same_structure s2 s3 -> same_structure s1 s3.
Proof. unfold same_structure. congruence. Qed.

Lemma structure_set_field c v r : structure (set_field c v r) = structure r.
Proof. destruct c; reflexivity. Qed.

Lemma structure_list_set i r r' cells :
  nth_error cells i = Some r -> structure r' = structure r ->
  map structure (list_set i r' cells) = map structure cells.
Proof.
  revert i. induction cells as [| a cells IH]; intros i Hi Hr.
  - destruct i; discriminate.
  - destruct i as [| i]; simpl in *.
    + injection Hi as ->. rewrite Hr. reflexivity.
    + f_equal. eauto.
Qed.

Lemma structure_set_cell_value v hashtag c cells :
  map structure (set_cell_value v hashtag c cells) = map structure cells.
Proof.
  unfold set_cell_value. destruct (nth_error cells hashtag) as [r |] eqn:E.
  - eapply structure_list_set; eauto. apply structure_set_field.
  - reflexivity.
Qed.

Lemma structure_number_rows n cells :
  map structure (number_rows n cells) = map structure cells.
Proof.
  revert n. induction cells as [| r cells IH]; intros n; simpl.
  - reflexivity.
  - rewrite IH. reflexivity.
Qed.

Lemma structure_clear_ids cells : map structure (clear_ids cells) = map structure cells.
Proof.
  unfold clear_ids. rewrite map_map. apply map_ext. intros r. apply structure_set_field.
Qed.

Lemma write_cell_same_structure v hashtag c :
  preserves same_structure (write_cell v hashtag c).
Proof.
  intros s. unfold same_structure. simpl. symmetry. apply structure_set_cell_value.
Qed.

Lemma assign_same_cells submodel arg c to_use v s :
  cells (snd (assign submodel arg c to_use v s)) = cells s.
Proof.
  unfold assign. destruct (assign_param (parameters s) submodel arg c to_use v); reflexivity.
Qed.

Lemma assign_same_structure submodel arg c to_use v :
  preserves same_structure (assign submodel arg c to_use v).
Proof. intros s. unfold same_structure. rewrite assign_same_cells. reflexivity. Qed.

Lemma submodel_update_same_cells submodel f s :
  cells (snd (submodel_update submodel f s)) = cells s.
Proof.
  unfold submodel_update. destruct (assoc submodel (self_submodel s)); reflexivity.
Qed.

Lemma submodel_update_same_structure submodel f :
  preserves same_structure (submodel_update submodel f).
Proof. intros s. unfold same_structure. rewrite submodel_update_same_cells. reflexivity. Qed.

Ltac structure_leaf :=
  first
    [ apply write_cell_same_structure
    | apply assign_same_structure
    | apply submodel_update_same_structure
    | apply preserves_modify; intros ?; reflexivity ].

Ltac structure_frame :=
  peel same_structure_refl same_structure_trans structure_leaf.

Lemma assemble_arg_same_structure fuel submodel arg :
  preserves same_structure (assemble_arg fuel submodel arg).
Proof. unfold assemble_arg, model_append, var_append. structure_frame. Qed.

Lemma assemble_same_structure signature fuel :
  preserves same_structure (assemble signature fuel).
Proof.
  unfold assemble, assemble_submodel, model_append.
  peel same_structure_refl same_structure_trans
    ltac:(first [apply assemble_arg_same_structure | structure_leaf]).
Qed.

Lemma start_model_same_structure : preserves same_structure start_model.
Proof.
  intros s. unfold same_structure. simpl.
  rewrite structure_clear_ids, structure_number_rows. reflexivity.
Qed.

Lemma update_submodels_same_structure signature py_accepts :
  preserves same_structure (update_submodels signature py_accepts).
Proof.
  unfold update_submodels, preview_submodel, preview_arg. structure_frame.
Qed.

Lemma update_model_same_structure signature py_accepts fuel :
  preserves same_structure (update_model signature py_accepts fuel).
Proof.
  unfold update_model, finish_model, check_guess, fill_defaults.
  peel same_structure_refl same_structure_trans
    ltac:(first [ apply start_model_same_structure
                | apply assemble_same_structure
                | apply update_submodels_same_structure
                | structure_leaf ]).
Qed.

Lemma fit_same_structure signature py_accepts curve_fit fuel :
  preserves same_structure (fit signature py_accepts curve_fit fuel).
Proof.
  unfold fit, write_back_submodel, write_back_arg.
  peel same_structure_refl same_structure_trans
    ltac:(first [ apply update_model_same_structure
                | apply update_submodels_same_structure
                | structure_leaf ]).
Qed.

(** X4.  Whatever their outcome (a return, an exception, a link loop
    that never ends), [update_model] and [fit] neither add nor remove
    a row, and never change a [submodel], [arg], [use], [vary], [min]
    or [max] cell of the sheet. *)
Theorem update_model_and_fit_keep_structure signature py_accepts curve_fit fuel s :
  map structure (cells (snd (update_model signature py_accepts fuel s)))
  = map structure (cells s)
  /\ map structure (cells (snd (fit signature py_accepts curve_fit fuel s)))
     = map structure (cells s).
Proof.
  split; symmetry.
  - apply update_model_same_structure.
  - apply fit_same_structure.
Qed.

(* ------------------------------------------------------------------ *)
(** ** [update_submodels] writes [self.submodel] only *)

Lemma same_but_submodel_refl s : same_but_submodel s s.
Proof. reflexivity. Qed.

Lemma same_but_submodel_trans s1 s2 s3 :
  same_but_submodel s1 s2 -> same_but_submodel s2 s3 -> same_but_submodel s1 s3.
Proof. unfold same_but_submodel. congruence. Qed.

Lemma submodel_update_same_but_submodel submodel f :
  preserves same_but_submodel (submodel_update submodel f).
Proof.
  intros s. unfold submodel_update.
  destruct (assoc submodel (self_submodel s)); reflexivity.
Qed.

Lemma update_submodels_same_but_submodel signature py_accepts :
  preserves same_but_submodel (update_submodels signature py_accepts).
Proof.
  unfold update_submodels, preview_submodel, preview_arg.
  peel same_but_submodel_refl same_but_submodel_trans
    ltac:(first [ apply submodel_update_same_but_submodel
                | apply preserves_modify; intros ?; reflexivity ]).
Qed.

Lemma same_but_submodel_eq s s' :
  same_but_submodel s s' -> s' = set_self_submodel (self_submodel s') s.
Proof.
  unfold same_but_submodel. destruct s, s'. simpl.
  intros H. injection H as -> -> -> -> -> -> -> -> -> -> -> -> -> ->. reflexivity.
Qed.

(** X5.  Whatever its outcome, [update_submodels] changes no attribute
    of the sheet object other than [self.submodel], and no cell. *)
Theorem update_submodels_writes_submodel_only signature py_accepts s :
  let s' := snd (update_submodels signature py_accepts s) in
  s' = set_self_submodel (self_submodel s') s.
Proof.
  simpl. apply same_but_submodel_eq. apply update_submodels_same_but_submodel.
Qed.

(* ================================================================== *)
(** * Running a method from two states *)

Lemma sim_bind R Q Q' F {A B : Type} (m : M A) (k : A -> M B) :
  sim R Q F m -> (forall a, sim Q Q' F (k a)) -> sim R Q' F (bind m k).
Proof.
  intros Hm Hk s1 s2 HR. destruct (Hm s1 s2 HR) as [Ho Hq]. unfold bind.
  destruct (m s1) as [o1 t1], (m s2) as [o2 t2]. simpl in *. subst o2.
  destruct o1 as [a | e |]; simpl; auto.
  apply (Hk a). exact Hq.
Qed.

Lemma sim_weaken R Q Q' F {A : Type} (m : M A) :
  (forall s1 s2, Q s1 s2 -> Q' s1 s2) -> sim R Q F m -> sim R Q' F m.
Proof.
  intros HQ Hm s1 s2 HR. destruct (Hm s1 s2 HR) as [Ho Hq]. split; [exact Ho |].
  destruct (fst (m s1)); auto.
Qed.

Lemma sim_weaken_fail R Q F F' {A : Type} (m : M A) :
  (forall s1 s2, F s1 s2 -> F' s1 s2) -> sim R Q F m -> sim R Q F' m.
Proof.
  intros HF Hm s1 s2 HR. destruct (Hm s1 s2 HR) as [Ho Hq]. split; [exact Ho |].
  destruct (fst (m s1)); auto.
Qed.

Lemma respects_ret R {A : Type} (a : A) : respects R (ret a).
Proof. intros s1 s2 HR. split; [reflexivity | exact HR]. Qed.

Lemma respects_raise R {A : Type} (e : exn) : respects R (@raise A e).
Proof. intros s1 s2 HR. split; [reflexivity | exact HR]. Qed.

Lemma respects_eval_in R {A : Type} (f : self -> outcome A) :
  (forall s1 s2, R s1 s2 -> f s1 = f s2) -> respects R (eval_in f).
Proof.
  intros Hf s1 s2 HR. unfold eval_in. simpl. split; [auto |].
  destruct (f s1); exact HR.
Qed.

Lemma respects_modify R (f : self -> self) :
  (forall s1 s2, R s1 s2 -> R (f s1) (f s2)) -> respects R (modify f).
Proof. intros Hf s1 s2 HR. split; [reflexivity | simpl; auto]. Qed.

Lemma respects_bind R {A B : Type} (m : M A) (k : A -> M B) :
  respects R m -> (forall a, respects R (k a)) -> respects R (bind m k).
Proof. apply sim_bind. Qed.

Lemma respects_for_each R {A : Type} (f : A -> M unit) l :
  (forall a, respects R (f a)) -> respects R (for_each l f).
Proof.
  intros Hf. induction l as [| a l IH]; simpl.
  - apply respects_ret.
  - apply respects_bind; auto.
Qed.

Lemma respects_py_eval R py_accepts src : respects R (py_eval py_accepts src).
Proof.
  unfold py_eval. destruct (py_accepts src); [apply respects_ret | apply respects_raise].
Qed.

(** From the equality of two states up to some attributes, the
    equality of every other attribute. *)
Ltac same_fields H :=
  match type of H with
  | _ ?s1 ?s2 =>
      destruct s1, s2; cbv in H; injection H; intros; subst
  end.

Ltac peel_sim leaf :=
  repeat first
    [ apply respects_ret
    | apply respects_raise
    | apply respects_py_eval
    | leaf
    | apply respects_for_each; intros ?
    | apply respects_bind; [| intros ?]
    | match goal with
      | |- respects _ (if ?b then _ else _) => destruct b
      | |- respects _ (match ?x with _ => _ end) => destruct x
      end ].

(* ------------------------------------------------------------------ *)
(** ** [update_model] starts afresh *)

Lemma same_core_refl s : same_core s s.
Proof. reflexivity. Qed.

Lemma respects_same_core_eval_in {A : Type} (f : self -> outcome A) :
  (forall s, f s = f (core s)) -> respects same_core (eval_in f).
Proof.
  intros Hf. apply respects_eval_in. intros s1 s2 H.
  rewrite (Hf s1), (Hf s2). unfold same_core in H. rewrite H. reflexivity.
Qed.

Lemma respects_same_core_modify (f : self -> self) :
  (forall s, core (f s) = core (f (core s))) -> respects same_core (modify f).
Proof.
  intros Hf. apply respects_modify. intros s1 s2 H. unfold same_core in *.
  rewrite (Hf s1), (Hf s2), H. reflexivity.
Qed.

Lemma respects_same_core_write_cell v hashtag c :
  respects same_core (write_cell v hashtag c).
Proof. apply respects_same_core_modify. intros s. reflexivity. Qed.

Lemma respects_same_core_assign submodel arg c to_use v :
  respects same_core (assign submodel arg c to_use v).
Proof.
  intros s1 s2 H. unfold assign.
  assert (Hp : parameters s1 = parameters s2).
  { unfold same_core in H. apply (f_equal parameters) in H. exact H. }
  rewrite <- Hp.
  destruct (assign_param (parameters s1) submodel arg c to_use v) as [ps | e |];
    simpl; split; try reflexivity; try exact H.
  unfold same_core in *. unfold core in *.
  destruct s1, s2. simpl in *. injection H. intros. subst. reflexivity.
Qed.

Ltac core_leaf :=
  first
    [ apply respects_same_core_write_cell
    | apply respects_same_core_assign
    | apply respects_same_core_eval_in; intros ?; reflexivity
    | apply respects_same_core_modify; intros ?; reflexivity ].

Lemma assemble_arg_respects_core fuel submodel arg :
  respects same_core (assemble_arg fuel submodel arg).
Proof. unfold assemble_arg, model_append, var_append. peel_sim core_leaf. Qed.

Lemma assemble_respects_core signature fuel :
  respects same_core (assemble signature fuel).
Proof.
  unfold assemble, assemble_submodel, model_append.
  peel_sim ltac:(first [apply assemble_arg_respects_core | core_leaf]).
Qed.

Lemma set_hash_again v w r1 r2 :
  set_hash v r1 = set_hash v r2 -> set_hash w r1 = set_hash w r2.
Proof.
  unfold set_hash. intros H. injection H. intros. congruence.
Qed.

Lemma number_rows_same_sheet v n cells1 cells2 :
  map (set_hash v) cells1 = map (set_hash v) cells2 ->
  number_rows n cells1 = number_rows n cells2.
Proof.
  revert n cells2. induction cells1 as [| r1 cells1 IH]; intros n [| r2 cells2] H;
    try discriminate; simpl in *.
  - reflexivity.
  - injection H. intros. f_equal; [unfold set_hash; congruence | apply IH; assumption].
Qed.

Lemma start_model_same_sheet :
  sim same_sheet same_core same_core start_model.
Proof.
  intros s1 s2 H. split; [reflexivity |]. simpl.
  unfold same_core, core. simpl.
  rewrite (number_rows_same_sheet _ 0 _ _ H). reflexivity.
Qed.

Lemma finish_model_same_core py_accepts :
  sim same_core same_but_submodel same_core (finish_model py_accepts).
Proof.
  intros s1 s2 H. unfold finish_model, py_eval.
  rewrite !bind_modify, !bind_eval_in. cbv beta iota.
  assert (Hv : var_string s1 = var_string s2).
  { apply (f_equal var_string) in H. exact H. }
  assert (Hm : model_string s1 = model_string s2).
  { apply (f_equal model_string) in H. exact H. }
  simpl. rewrite Hv, Hm.
  destruct (py_accepts _); simpl; (split; [reflexivity |]);
    unfold same_but_submodel, same_core, core in *;
    destruct s1, s2; simpl in *; injection H; intros; subst; reflexivity.
Qed.

Lemma same_but_submodel_core s1 s2 : same_but_submodel s1 s2 -> same_core s1 s2.
Proof.
  unfold same_but_submodel, same_core, core. intros H.
  destruct s1, s2. simpl in *. injection H. intros. subst. reflexivity.
Qed.

Lemma respects_but_submodel_eval_in {A : Type} (f : self -> outcome A) :
  (forall s, f s = f (set_self_submodel [] s)) ->
  respects same_but_submodel (eval_in f).
Proof.
  intros Hf. apply respects_eval_in. intros s1 s2 H.
  rewrite (Hf s1), (Hf s2). unfold same_but_submodel in H. rewrite H. reflexivity.
Qed.

Lemma respects_but_submodel_modify (f : self -> self) :
  (forall s, set_self_submodel [] (f s) = set_self_submodel [] (f (set_self_submodel [] s))) ->
  respects same_but_submodel (modify f).
Proof.
  intros Hf. apply respects_modify. intros s1 s2 H. unfold same_but_submodel in *.
  rewrite (Hf s1), (Hf s2), H. reflexivity.
Qed.

Ltac but_submodel_leaf :=
  first
    [ apply respects_but_submodel_eval_in; intros ?; reflexivity
    | apply respects_but_submodel_modify; intros ?; reflexivity ].

Lemma check_guess_respects : respects same_but_submodel check_guess.
Proof. unfold check_guess. peel_sim but_submodel_leaf. Qed.

Lemma fill_defaults_respects : respects same_but_submodel fill_defaults.
Proof. unfold fill_defaults. peel_sim but_submodel_leaf. Qed.

Lemma update_submodels_same_but_submodel_sim signature py_accepts :
  sim same_but_submodel eq same_core (update_submodels signature py_accepts).
Proof.
  intros s1 s2 H. unfold update_submodels. rewrite !bind_modify.
  unfold same_but_submodel in H. rewrite H. split; [reflexivity |].
  destruct (fst _); reflexivity.
Qed.

Lemma update_model_sim signature py_accepts fuel :
  sim same_sheet eq same_core (update_model signature py_accepts fuel).
Proof.
  unfold update_model.
  apply sim_bind with (Q := same_core); [apply start_model_same_sheet | intros _].
  apply sim_bind with (Q := same_core); [apply assemble_respects_core | intros _].
  apply sim_bind with (Q := same_but_submodel);
    [apply finish_model_same_core | intros _].
  apply sim_bind with (Q := same_but_submodel); [| intros _].
  { apply sim_weaken_fail with (F := same_but_submodel);
      [apply same_but_submodel_core | apply check_guess_respects]. }
  apply sim_bind with (Q := same_but_submodel); [| intros _].
  { apply sim_weaken_fail with (F := same_but_submodel);
      [apply same_but_submodel_core | apply fill_defaults_respects]. }
  apply update_submodels_same_but_submodel_sim.
Qed.

(** X6.  [update_model] starts afresh: what it computes depends on the
    cells of the sheet other than the [#] column, and on nothing that
    an earlier call left in the sheet object.  From two objects whose
    sheets agree outside [#] it has the same outcome; the states left
    agree, except possibly, when it does not return, on [id_list],
    [model_string] and [submodel], which it assigns only late. *)
Theorem update_model_starts_afresh signature py_accepts fuel s1 s2 :
  same_sheet s1 s2 ->
  let r1 := update_model signature py_accepts fuel s1 in
  let r2 := update_model signature py_accepts fuel s2 in
  fst r1 = fst r2
  /\ core (snd r1) = core (snd r2)
  /\ (fst r1 = Ok tt -> snd r1 = snd r2).
Proof.
  intros H. simpl.
  destruct (update_model_sim signature py_accepts fuel s1 s2 H) as [Ho Hs].
  split; [exact Ho |].
  destruct (fst (update_model signature py_accepts fuel s1)) as [[] | e |].
  - split; [rewrite Hs; reflexivity | intros _; exact Hs].
  - split; [exact Hs | discriminate].
  - split; [exact Hs | discriminate].
Qed.

Lemma update_model_starts_afresh_witness :
  let r1 := update_model sig_gauss2 (only_accepting []) 0 (fresh scenario1) in
  let r2 := update_model sig_gauss2 (only_accepting []) 0 stale_scenario1 in
  fst r1 = fst r2
  /\ core (snd r1) = core (snd r2)
  /\ (fst r1 = Ok tt -> snd r1 = snd r2).
Proof.
  apply (update_model_starts_afresh sig_gauss2 (only_accepting []) 0
           (fresh scenario1) stale_scenario1).
  reflexivity.
Defined.

(* ================================================================== *)
(** * Text *)

Lemma append_nil_r s : s ++ "" = s.
Proof. induction s as [| c s IH]; simpl; [| rewrite IH]; reflexivity. Qed.

Lemma append_assoc s t u : (s ++ t) ++ u = s ++ t ++ u.
Proof. induction s as [| c s IH]; simpl; [| rewrite IH]; reflexivity. Qed.

Lemma length_append s t :
  String.length (s ++ t) = String.length s + String.length t.
Proof. induction s as [| c s IH]; simpl; [| rewrite IH]; reflexivity. Qed.

Lemma substring_all s : substring 0 (String.length s) s = s.
Proof. induction s as [| c s IH]; simpl; [| rewrite IH]; reflexivity. Qed.

Lemma substring_append s t m :
  substring 0 (String.length s + m) (s ++ t) = s ++ substring 0 m t.
Proof. induction s as [| c s IH]; simpl; [| rewrite IH]; reflexivity. Qed.

(** [(s + t)[:-n]] cuts inside [t] when [t] is long enough. *)
Lemma drop_last_append n s t :
  n <= String.length t -> drop_last n (s ++ t) = s ++ drop_last n t.
Proof.
  intros Hn. unfold drop_last. rewrite length_append.
  replace (String.length s + String.length t - n)
    with (String.length s + (String.length t - n)) by lia.
  apply substring_append.
Qed.

Lemma drop_last_all s : drop_last (String.length s) s = "".
Proof.
  unfold drop_last. rewrite Nat.sub_diag. destruct s; reflexivity.
Qed.

Lemma drop_last_suffix s t : drop_last (String.length t) (s ++ t) = s.
Proof.
  rewrite drop_last_append by lia. rewrite drop_last_all. apply append_nil_r.
Qed.





Lemma string_forall_append P s t :
  string_forall P (s ++ t) = string_forall P s && string_forall P t.
Proof.
  induction s as [| c s IH]; simpl; [reflexivity |].
  rewrite IH, andb_assoc. reflexivity.
Qed.



(** ** [strip] *)







(** ** The ids *)




(** ** [var_string] and [id_list] *)




(* ================================================================== *)
(** * Following a call that returned *)





(* ================================================================== *)
(** * The vectors of the free parameters and the ids *)












(** [update_model] as the sequence of its six blocks. *)
Lemma update_model_blocks signature py_accepts fuel s :
  update_model signature py_accepts fuel s
  = bind start_model (fun _ =>
      bind (assemble signature fuel) (fun _ =>
        bind (finish_model py_accepts) (fun _ =>
          bind check_guess (fun _ =>
            bind fill_defaults (fun _ =>
              update_submodels signature py_accepts))))) s.
Proof. unfold update_model. reflexivity. Qed.



(* ================================================================== *)
(** * [update_submodels] *)

Lemma assoc_set_twice {A : Type} k (a b : A) d :
  assoc_set k a (assoc_set k b d) = assoc_set k a d.
Proof.
  induction d as [| [k0 a0] d IH]; simpl.
  - rewrite String.eqb_refl. reflexivity.
  - destruct (String.eqb k0 k) eqn:E; simpl; rewrite E; [reflexivity |].
    rewrite IH. reflexivity.
Qed.


(* ================================================================== *)
(** * The mapping read against the sheet *)

Lemma value_in_app v l1 l2 : value_in v (l1 ++ l2) = value_in v l1 || value_in v l2.
Proof. unfold value_in. apply existsb_app. Qed.

Lemma any_use_assoc_set_new arg e args :
  assoc arg args = None ->
  any_use (assoc_set arg e args) = any_use args || value_in (VStr "y") (e_use e).
Proof.
  induction args as [| [k a] args IH]; simpl; intros H.
  - rewrite orb_false_r. reflexivity.
  - destruct (String.eqb k arg); [discriminate |]. simpl.
    rewrite (IH H), orb_assoc. reflexivity.
Qed.

Lemma any_use_assoc_set_grown arg e e' b args :
  assoc arg args = Some e ->
  value_in (VStr "y") (e_use e') = value_in (VStr "y") (e_use e) || b ->
  any_use (assoc_set arg e' args) = any_use args || b.
Proof.
  induction args as [| [k a] args IH]; simpl; intros H He.
  - discriminate.
  - destruct (String.eqb k arg); simpl.
    + inversion H; subst a. rewrite He.
      destruct (value_in (VStr "y") (e_use e)), b, (any_use args); reflexivity.
    + rewrite (IH H He), orb_assoc. reflexivity.
Qed.

Lemma any_use_of_add_row ps n r submodel :
  any_use_of (add_row ps n r) submodel
  = any_use_of ps submodel || (listed_under submodel r && in_use r).
Proof.
  unfold add_row, listed_under, in_use.
  destruct (String.eqb (c_submodel r) ""); simpl; [rewrite orb_false_r; reflexivity |].
  destruct (String.eqb_spec (c_submodel r) submodel) as [Es | Es]; simpl.
  - subst submodel. unfold any_use_of.
    destruct (assoc (c_submodel r) ps) as [args |] eqn:Ea.
    + destruct (assoc (c_arg r) args) as [e |] eqn:Ee; rewrite assoc_set_same.
      * apply any_use_assoc_set_grown with (e := e); [exact Ee |].
        simpl. rewrite value_in_app. simpl. rewrite orb_false_r. reflexivity.
      * rewrite (any_use_assoc_set_new _ _ _ Ee). simpl.
        rewrite orb_false_r. reflexivity.
    + rewrite assoc_set_same. simpl. rewrite !orb_false_r. reflexivity.
  - rewrite orb_false_r. unfold any_use_of.
    destruct (assoc (c_submodel r) ps) as [args |].
    + destruct (assoc (c_arg r) args); rewrite assoc_set_other by congruence; reflexivity.
    + rewrite assoc_set_other by congruence. reflexivity.
Qed.

Lemma any_use_of_scan_rows ps n cells submodel :
  any_use_of (scan_rows ps n cells) submodel
  = any_use_of ps submodel || active submodel cells.
Proof.
  revert ps n. induction cells as [| r cells IH]; intros ps n; simpl.
  - rewrite orb_false_r. reflexivity.
  - rewrite IH, any_use_of_add_row, orb_assoc. reflexivity.
Qed.

Lemma is_active_any_use_of ps submodel :
  is_active ps submodel
  = if has_key submodel ps then Ok (any_use_of ps submodel)
    else Raise (KeyError submodel).
Proof.
  unfold is_active, has_key, any_use_of.
  destruct (assoc submodel ps); reflexivity.
Qed.

(** The test [update_model] makes on a submodel of the mapping, read
    on the sheet. *)
Lemma is_active_get_parameters cells submodel :
  is_active (scan_rows [] 0 (number_rows 0 cells)) submodel
  = if existsb (listed_under submodel) cells then Ok (active submodel cells)
    else Raise (KeyError submodel).
Proof.
  rewrite is_active_any_use_of, scan_rows_numbered, has_key_scan_rows,
    any_use_of_scan_rows.
  reflexivity.
Qed.

(** The first ['y'] of the [use] list is the selected use-case. *)
Lemma find_in_use l x :
  find (fun ir : nat * row => in_use (snd ir)) l = Some x ->
  exists j,
    index_of (VStr "y") (map (fun ir => c_use (snd ir)) l) = Some j
    /\ nth_error l j = Some x.
Proof.
  induction l as [| a l IH]; simpl; intros H.
  - discriminate.
  - unfold in_use in H at 1.
    destruct (value_eqb (c_use (snd a)) (VStr "y")).
    + inversion H; subst. exists 0. split; reflexivity.
    + destruct (IH H) as [j [Hi Hn]]. exists (S j). rewrite Hi. split; auto.
Qed.

Lemma find_in_use_none l :
  find (fun ir : nat * row => in_use (snd ir)) l = None ->
  index_of (VStr "y") (map (fun ir => c_use (snd ir)) l) = None.
Proof.
  induction l as [| a l IH]; simpl; intros H.
  - reflexivity.
  - unfold in_use in H at 1.
    destruct (value_eqb (c_use (snd a)) (VStr "y")); [discriminate |].
    rewrite (IH H). reflexivity.
Qed.

Lemma get_entry_get_parameters cells submodel arg a l :
  rows_of submodel arg cells = a :: l ->
  get_entry (scan_rows [] 0 (number_rows 0 cells)) submodel arg
  = Ok (entry_of_rows (a :: l)).
Proof.
  intros H. rewrite get_entry_find, find_entry_get_parameters, H. reflexivity.
Qed.

(** What the mapping holds for a pair with a selected use-case. *)
Lemma selected_entry cells submodel arg i r :
  selected submodel arg cells = Some (i, r) ->
  exists l j,
    get_entry (scan_rows [] 0 (number_rows 0 cells)) submodel arg
    = Ok (entry_of_rows l)
    /\ index_of (VStr "y") (e_use (entry_of_rows l)) = Some j
    /\ nth_error l j = Some (i, r).
Proof.
  unfold selected. intros H.
  destruct (find_in_use _ _ H) as [j [Hi Hn]].
  exists (rows_of submodel arg cells), j.
  destruct (rows_of submodel arg cells) as [| a l] eqn:E.
  - destruct j; discriminate.
  - rewrite (get_entry_get_parameters _ _ _ _ _ E). auto.
Qed.

(* ------------------------------------------------------------------ *)
(** ** The keys of the mapping *)

Lemma assoc_none_not_in {A : Type} k (d : list (string * A)) :
  assoc k d = None -> ~ In k (map fst d).
Proof.
  induction d as [| [k0 a0] d IH]; simpl; intros H.
  - tauto.
  - destruct (String.eqb_spec k0 k); [discriminate |].
    intros [Hk | Hk]; [congruence | exact (IH H Hk)].
Qed.

Lemma assoc_set_nodup {A : Type} k (a : A) d :
  NoDup (map fst d) -> NoDup (map fst (assoc_set k a d)).
Proof.
  intros H. destruct (assoc k d) as [a' |] eqn:E.
  - rewrite (assoc_set_keys _ _ _ _ E). exact H.
  - rewrite (assoc_set_new_key _ _ _ E).
    apply NoDup_app; [exact H | constructor; [simpl; tauto | constructor] |].
    intros x Hx [Hk | []]. subst x. exact (assoc_none_not_in _ _ E Hx).
Qed.

Lemma add_row_nodup ps n r : NoDup (map fst ps) -> NoDup (map fst (add_row ps n r)).
Proof.
  intros H. unfold add_row.
  destruct (String.eqb (c_submodel r) ""); [exact H |].
  destruct (assoc (c_submodel r) ps) as [args |];
    [destruct (assoc (c_arg r) args) |]; apply assoc_set_nodup; exact H.
Qed.

Lemma scan_rows_nodup ps n cells :
  NoDup (map fst ps) -> NoDup (map fst (scan_rows ps n cells)).
Proof.
  revert ps n. induction cells as [| r cells IH]; intros ps n H; simpl.
  - exact H.
  - apply IH, add_row_nodup, H.
Qed.

Lemma has_key_true_in {A : Type} k (d : list (string * A)) :
  has_key k d = true -> In k (map fst d).
Proof.
  unfold has_key. destruct (assoc k d) eqn:E; [| discriminate].
  intros _. eapply assoc_in_keys; eauto.
Qed.

Lemma in_keys_has_key {A : Type} k (d : list (string * A)) :
  In k (map fst d) -> has_key k d = true.
Proof.
  intros H. unfold has_key. destruct (assoc k d) eqn:E; [reflexivity |].
  exfalso. exact (assoc_none_not_in _ _ E H).
Qed.

(* ------------------------------------------------------------------ *)
(** ** Assignments into the mapping *)

Lemma find_entry_with_param ps submodel arg e submodel' arg' :
  find_entry (with_param submodel arg e ps) submodel' arg'
  = if has_key submodel ps && String.eqb submodel submodel' && String.eqb arg arg'
    then Some e else find_entry ps submodel' arg'.
Proof.
  unfold with_param, find_entry, has_key.
  destruct (assoc submodel ps) as [args |] eqn:Ea; simpl; [| reflexivity].
  destruct (String.eqb_spec submodel submodel') as [Es | Es]; simpl.
  - subst submodel'. rewrite assoc_set_same, Ea.
    destruct (String.eqb_spec arg arg') as [Eg | Eg].
    + subst arg'. apply assoc_set_same.
    + apply assoc_set_other. congruence.
  - rewrite assoc_set_other by congruence. reflexivity.
Qed.

Lemma with_param_keys ps submodel arg e :
  map fst (with_param submodel arg e ps) = map fst ps.
Proof.
  unfold with_param. destruct (assoc submodel ps) as [args |] eqn:Ea; [| reflexivity].
  eapply assoc_set_keys; eauto.
Qed.

Lemma has_key_with_param ps submodel arg e k :
  has_key k (with_param submodel arg e ps) = has_key k ps.
Proof.
  rewrite <- !has_key_in_keys, with_param_keys. reflexivity.
Qed.

Lemma get_entry_with_param_same ps submodel arg e e' :
  get_entry ps submodel arg = Ok e ->
  get_entry (with_param submodel arg e' ps) submodel arg = Ok e'.
Proof.
  intros H. rewrite get_entry_find, find_entry_with_param, !String.eqb_refl.
  unfold get_entry, has_key in *. destruct (assoc submodel ps); [reflexivity | discriminate].
Qed.

Lemma get_entry_with_param_other ps submodel arg e submodel' arg' :
  submodel' <> submodel \/ arg' <> arg ->
  get_entry (with_param submodel arg e ps) submodel' arg'
  = get_entry ps submodel' arg'.
Proof.
  intros H. rewrite !get_entry_find, find_entry_with_param, has_key_with_param.
  destruct (String.eqb_spec submodel submodel'), (String.eqb_spec arg arg');
    try (rewrite andb_false_r; reflexivity); try (rewrite andb_false_l; reflexivity).
  subst. tauto.
Qed.

Lemma assign_param_ok ps submodel arg c to_use v e :
  get_entry ps submodel arg = Ok e ->
  to_use < List.length (entry_column c e) ->
  assign_param ps submodel arg c to_use v
  = Ok (with_param submodel arg
          (set_entry_column c (list_set to_use v (entry_column c e)) e) ps).
Proof.
  unfold get_entry, assign_param, with_param, store_item. intros H Hl.
  destruct (assoc submodel ps) as [args |]; simpl in *; [| discriminate].
  destruct (assoc arg args); simpl in *; [| discriminate].
  inversion H; subst. apply Nat.ltb_lt in Hl. rewrite Hl. reflexivity.
Qed.

Lemma with_param_skeleton ps submodel arg e e' :
  get_entry ps submodel arg = Ok e -> frozen e' = frozen e ->
  skeleton (with_param submodel arg e' ps) = skeleton ps.
Proof.
  unfold get_entry, with_param, skeleton. intros H Hf.
  destruct (assoc submodel ps) as [args |] eqn:Ea; simpl in *; [| discriminate].
  destruct (assoc arg args) as [e0 |] eqn:Ee; simpl in *; [| discriminate].
  inversion H; subst e0.
  apply map_values_assoc_set with (a' := args); auto.
  apply map_values_assoc_set with (a' := e); auto.
Qed.

(* ================================================================== *)
(** * Running the body of a loop forward *)

Lemma to_use_of_ok ps submodel arg e to_use :
  get_entry ps submodel arg = Ok e ->
  index_of (VStr "y") (e_use e) = Some to_use ->
  to_use_of ps submodel arg = Ok to_use.
Proof.
  intros He Hi. unfold to_use_of, use_index. rewrite He. simpl. rewrite Hi.
  reflexivity.
Qed.

Lemma to_use_of_missing ps submodel arg e :
  get_entry ps submodel arg = Ok e ->
  index_of (VStr "y") (e_use e) = None ->
  to_use_of ps submodel arg = Raise (MissingArgument submodel arg).
Proof.
  intros He Hi. unfold to_use_of, use_index. rewrite He. simpl. rewrite Hi.
  reflexivity.
Qed.

Lemma item_ok {A : Type} (l : list A) i a : nth_error l i = Some a -> item l i = Ok a.
Proof. intros H. unfold item. rewrite H. reflexivity. Qed.

Lemma nth_error_list_set {A : Type} i (v : A) l :
  i < List.length l -> nth_error (list_set i v l) i = Some v.
Proof.
  revert i. induction l as [| a l IH]; intros [| i] H; simpl in *;
    try lia; [reflexivity | apply IH; lia].
Qed.

Lemma length_list_set {A : Type} i (v : A) l :
  List.length (list_set i v l) = List.length l.
Proof.
  revert i. induction l as [| a l IH]; intros [| i]; simpl;
    try rewrite IH; reflexivity.
Qed.

Lemma nth_error_lt {A : Type} (l : list A) i a :
  nth_error l i = Some a -> i < List.length l.
Proof. intros H. apply nth_error_Some. congruence. Qed.

Lemma with_param_twice ps submodel arg e e' :
  with_param submodel arg e' (with_param submodel arg e ps)
  = with_param submodel arg e' ps.
Proof.
  unfold with_param. destruct (assoc submodel ps) as [args |] eqn:Ea.
  - rewrite assoc_set_same, !assoc_set_twice. reflexivity.
  - rewrite Ea. reflexivity.
Qed.

Lemma bind_assign_ok {B : Type} submodel arg c to_use v (k : unit -> M B) s e :
  get_entry (parameters s) submodel arg = Ok e ->
  to_use < List.length (entry_column c e) ->
  bind (assign submodel arg c to_use v) k s
  = k tt (set_parameters
            (with_param submodel arg
               (set_entry_column c (list_set to_use v (entry_column c e)) e)
               (parameters s)) s).
Proof.
  intros He Hl. unfold bind, assign.
  rewrite (assign_param_ok _ _ _ _ _ _ _ He Hl). reflexivity.
Qed.

Ltac fields :=
  cbn [cells parameters p_min p_max p_guess p_fitted p_error linked_parameters
       id_list self_model_string self_submodel var_string model_string
       p_counter x_counter
       set_cells set_parameters set_p_min set_p_max set_p_guess set_p_fitted
       set_p_error set_linked_parameters set_id_list set_self_model_string
       set_self_submodel set_var_string set_model_string set_p_counter
       set_x_counter].

(** A free argument that no link has reached yet. *)
Lemma assemble_arg_free fuel submodel arg t e to_use hashtag mn mx g f er :
  get_entry (parameters t) submodel arg = Ok e ->
  index_of (VStr "y") (e_use e) = Some to_use ->
  nth_error (e_vary e) to_use = Some (VStr "y") ->
  nth_error (e_hash e) to_use = Some hashtag ->
  nth_error (e_min e) to_use = Some mn ->
  nth_error (e_max e) to_use = Some mx ->
  nth_error (e_guess e) to_use = Some g ->
  nth_error (e_fitted e) to_use = Some f ->
  nth_error (e_error e) to_use = Some er ->
  to_use < List.length (e_id e) ->
  assoc (submodel ++ "," ++ arg) (linked_parameters t) = None ->
  let id := "p" ++ str_nat (p_counter t) in
  assemble_arg fuel submodel arg t
  = (Ok tt,
     mk_self (set_cell_value (VStr id) hashtag col_id (cells t))
       (with_param submodel arg (entry_with_id (VStr id) to_use e) (parameters t))
       (p_min t ++ [mn]) (p_max t ++ [mx]) (p_guess t ++ [g])
       (p_fitted t ++ [f]) (p_error t ++ [er])
       (linked_parameters t) (id_list t) (self_model_string t) (self_submodel t)
       (var_string t ++ id ++ ", ") (model_string t ++ id ++ ", ")
       (S (p_counter t)) (x_counter t)).
Proof.
  intros He Hu Hv Hh Hmn Hmx Hg Hf Her Hid Hl. cbv zeta.
  unfold assemble_arg.
  rewrite bind_eval_in, (to_use_of_ok _ _ _ _ _ He Hu).
  rewrite bind_eval_in, He.
  rewrite bind_eval_in, (item_ok _ _ _ Hv).
  rewrite bind_eval_in, (item_ok _ _ _ Hh).
  change (is_link (VStr "y")) with false. cbv iota.
  change (value_eqb (VStr "y") (VStr "n")) with false. cbv iota.
  rewrite bind_eval_in, (item_ok _ _ _ Hmn), bind_modify.
  rewrite bind_eval_in, (item_ok _ _ _ Hmx), bind_modify.
  rewrite bind_eval_in, (item_ok _ _ _ Hg), bind_modify.
  rewrite bind_eval_in, (item_ok _ _ _ Hf), bind_modify.
  rewrite bind_eval_in, (item_ok _ _ _ Her), bind_modify.
  rewrite bind_eval_in. fields. rewrite Hl.
  rewrite bind_eval_in. fields.
  unfold write_cell, var_append, model_append.
  rewrite bind_modify.
  rewrite (bind_assign_ok _ _ _ _ _ _ _ e) by (fields; assumption).
  rewrite !bind_modify. unfold modify. reflexivity.
Qed.

(** A fixed argument. *)
Lemma assemble_arg_fixed fuel submodel arg t e to_use hashtag v :
  get_entry (parameters t) submodel arg = Ok e ->
  index_of (VStr "y") (e_use e) = Some to_use ->
  nth_error (e_vary e) to_use = Some (VStr "n") ->
  nth_error (e_hash e) to_use = Some hashtag ->
  nth_error (e_guess e) to_use = Some v ->
  to_use < List.length (e_id e) ->
  to_use < List.length (e_fitted e) ->
  to_use < List.length (e_error e) ->
  assemble_arg fuel submodel arg t
  = (Ok tt,
     mk_self
       (set_cell_value (VInt 0) hashtag col_error
          (set_cell_value v hashtag col_fitted
             (set_cell_value (VStr "-") hashtag col_id (cells t))))
       (with_param submodel arg (entry_fixed v to_use e) (parameters t))
       (p_min t) (p_max t) (p_guess t) (p_fitted t) (p_error t)
       (linked_parameters t) (id_list t) (self_model_string t) (self_submodel t)
       (var_string t) (model_string t ++ str v ++ ", ")
       (p_counter t) (x_counter t)).
Proof.
  intros He Hu Hv Hh Hg Hid Hf Her.
  unfold assemble_arg.
  rewrite bind_eval_in, (to_use_of_ok _ _ _ _ _ He Hu).
  rewrite bind_eval_in, He.
  rewrite bind_eval_in, (item_ok _ _ _ Hv).
  rewrite bind_eval_in, (item_ok _ _ _ Hh).
  change (is_link (VStr "n")) with false. cbv iota.
  change (value_eqb (VStr "n") (VStr "n")) with true. cbv iota.
  rewrite bind_eval_in, (item_ok _ _ _ Hg).
  unfold write_cell, model_append.
  rewrite !bind_modify.
  rewrite (bind_assign_ok _ _ _ _ _ _ _ e) by (fields; assumption).
  rewrite bind_modify.
  erewrite bind_assign_ok;
    [ | fields; eapply get_entry_with_param_same; eassumption | simpl; assumption ].
  rewrite bind_modify.
  unfold assign. fields.
  erewrite assign_param_ok;
    [ | eapply get_entry_with_param_same;
        eapply get_entry_with_param_same; eassumption
      | simpl; assumption ].
  rewrite !with_param_twice. reflexivity.
Qed.

(* ------------------------------------------------------------------ *)
(** ** Submodels that are not assembled, and the one that is *)

Lemma for_each_unchanged {A : Type} (f : A -> M unit) l t :
  (forall a, In a l -> f a t = (Ok tt, t)) -> for_each l f t = (Ok tt, t).
Proof.
  induction l as [| a l IH]; simpl; intros H.
  - reflexivity.
  - rewrite (bind_ok _ _ _ _ _ (H a (or_introl eq_refl))). auto.
Qed.

Lemma assemble_submodel_inactive signature fuel submodel t :
  is_active (parameters t) submodel = Ok false ->
  assemble_submodel signature fuel submodel t = (Ok tt, t).
Proof.
  intros H. unfold assemble_submodel. rewrite bind_eval_in, H. reflexivity.
Qed.

Lemma assemble_submodel_active signature fuel submodel t first args :
  is_active (parameters t) submodel = Ok true ->
  signature in_update_model (split_first "#" submodel) = Ok (first :: args) ->
  assemble_submodel signature fuel submodel t
  = bind (for_each args (assemble_arg fuel submodel))
      (fun _ => model_append ") + ")
      (set_model_string (model_string t ++ split_first "#" submodel ++ "(x, ") t).
Proof.
  intros Ha Hs. unfold assemble_submodel.
  rewrite bind_eval_in, Ha, bind_eval_in, Hs. cbv iota beta.
  unfold model_append at 1. rewrite bind_modify. reflexivity.
Qed.

Lemma preview_submodel_inactive signature py_accepts submodel t :
  is_active (parameters t) submodel = Ok false ->
  preview_submodel signature py_accepts submodel t = (Ok tt, t).
Proof.
  intros H. unfold preview_submodel. rewrite bind_eval_in, H. reflexivity.
Qed.

Lemma write_back_submodel_inactive signature submodel t :
  is_active (parameters t) submodel = Ok false ->
  write_back_submodel signature submodel t = (Ok tt, t).
Proof.
  intros H. unfold write_back_submodel. rewrite bind_eval_in, H. reflexivity.
Qed.

(** The slots of a use-case in the entry of its pair. *)
Lemma entry_of_rows_nth l j i r :
  nth_error l j = Some (i, r) ->
  let e := entry_of_rows l in
  nth_error (e_hash e) j = Some i
  /\ nth_error (e_use e) j = Some (c_use r)
  /\ nth_error (e_vary e) j = Some (c_vary r)
  /\ nth_error (e_guess e) j = Some (c_guess r)
  /\ nth_error (e_min e) j = Some (c_min r)
  /\ nth_error (e_max e) j = Some (c_max r)
  /\ nth_error (e_fitted e) j = Some (c_fitted r)
  /\ nth_error (e_error e) j = Some (c_error r)
  /\ nth_error (e_id e) j = Some (c_id r).
Proof.
  intros H. simpl.
  repeat split;
    match goal with
    | |- nth_error (map ?f l) j = _ => exact (map_nth_error f j l H)
    end.
Qed.

(** With one submodel in use, every other key of the mapping is
    skipped. *)
Lemma only_active_inactive submodel cells k :
  only_active submodel cells = true -> k <> submodel -> active k cells = false.
Proof.
  unfold only_active, active. intros H Hk.
  induction cells as [| r cells IH]; simpl in *; [reflexivity |].
  apply andb_true_iff in H. destruct H as [Hr H]. rewrite (IH H), orb_false_r.
  unfold listed_under.
  destruct (in_use r); [| apply andb_false_r].
  destruct (String.eqb (c_submodel r) ""); [reflexivity |]. simpl in *.
  destruct (String.eqb_spec (c_submodel r) submodel) as [E | E]; [| discriminate].
  destruct (String.eqb_spec (c_submodel r) k); [congruence | reflexivity].
Qed.

Lemma is_active_other_key submodel cells k :
  only_active submodel cells = true -> k <> submodel ->
  In k (map fst (scan_rows [] 0 (number_rows 0 cells))) ->
  is_active (scan_rows [] 0 (number_rows 0 cells)) k = Ok false.
Proof.
  intros H Hk Hin. rewrite is_active_get_parameters.
  apply in_keys_has_key in Hin.
  rewrite scan_rows_numbered, has_key_scan_rows in Hin. simpl in Hin.
  rewrite Hin, (only_active_inactive _ _ _ H Hk). reflexivity.
Qed.

Lemma selected_active submodel arg cells i r :
  selected submodel arg cells = Some (i, r) -> active submodel cells = true.
Proof.
  unfold selected, rows_of, active. intros H.
  apply find_some in H. destruct H as [Hin Hu].
  apply filter_In in Hin. destruct Hin as [Hin Hl].
  apply andb_true_iff in Hl. destruct Hl as [Hl _]. simpl in *.
  apply existsb_exists. exists r. split.
  - clear - Hin. revert Hin. generalize 0 as n.
    induction cells as [| a cells IH]; simpl; intros n H.
    + contradiction.
    + destruct H as [H | H]; [inversion H; auto | right; eapply IH; eauto].
  - rewrite Hl, Hu. reflexivity.
Qed.

Lemma active_listed submodel cells :
  active submodel cells = true -> existsb (listed_under submodel) cells = true.
Proof.
  unfold active. intros H. apply existsb_exists in H. destruct H as [r [Hin Hr]].
  apply andb_true_iff in Hr. apply existsb_exists. exists r. tauto.
Qed.

Lemma is_active_selected submodel arg cells i r :
  selected submodel arg cells = Some (i, r) ->
  is_active (scan_rows [] 0 (number_rows 0 cells)) submodel = Ok true.
Proof.
  intros H. apply selected_active in H.
  rewrite is_active_get_parameters, (active_listed _ _ H), H. reflexivity.
Qed.

(** The keys of the mapping around the one submodel in use. *)
Lemma keys_around submodel cells :
  only_active submodel cells = true -> active submodel cells = true ->
  let ps := scan_rows [] 0 (number_rows 0 cells) in
  exists pre post,
    map fst ps = (pre ++ submodel :: post)%list
    /\ (forall k, In k pre -> is_active ps k = Ok false)
    /\ (forall k, In k post -> is_active ps k = Ok false).
Proof.
  intros Ho Ha ps.
  assert (Hin : In submodel (map fst ps)).
  { apply has_key_true_in. unfold ps.
    rewrite scan_rows_numbered, has_key_scan_rows. apply active_listed, Ha. }
  assert (Hnd : NoDup (map fst ps)) by (apply scan_rows_nodup; constructor).
  destruct (in_split _ _ Hin) as [pre [post E]]. exists pre, post.
  rewrite E in Hnd. apply NoDup_remove_2 in Hnd.
  split; [exact E |].
  split; intros k Hk; apply (is_active_other_key submodel); auto;
    try (intros ->; apply Hnd, in_or_app; auto);
    fold ps; rewrite E; apply in_or_app; simpl; auto.
Qed.

(* ================================================================== *)
(** * Running [update_submodels] forward *)

Lemma with_entry_twice submodel gf gf' s :
  with_entry submodel gf (with_entry submodel gf' s) = with_entry submodel gf s.
Proof. unfold with_entry. simpl. rewrite assoc_set_twice. reflexivity. Qed.

Lemma with_entry_lookup submodel gf s :
  assoc submodel (self_submodel (with_entry submodel gf s)) = Some gf.
Proof. unfold with_entry. simpl. apply assoc_set_same. Qed.

(** A [submodel_update] on a state whose entry is known. *)
Lemma submodel_update_with_entry submodel f gf s :
  submodel_update submodel f (with_entry submodel gf s)
  = (Ok tt, with_entry submodel (f gf) s).
Proof.
  unfold submodel_update. rewrite with_entry_lookup.
  change (set_self_submodel
            (assoc_set submodel (f gf)
               (self_submodel (with_entry submodel gf s)))
            (with_entry submodel gf s))
    with (with_entry submodel (f gf) (with_entry submodel gf s)).
  rewrite with_entry_twice. reflexivity.
Qed.

Lemma preview_arg_run submodel arg gf t g f :
  preview_values t submodel arg = Ok (g, f) ->
  preview_arg submodel arg (with_entry submodel gf t)
  = (Ok tt, with_entry submodel (fst gf ++ str g ++ ", ", snd gf ++ str f ++ ", ") t).
Proof.
  intros H. unfold preview_values in H. unfold preview_arg.
  rewrite bind_eval_in.
  change (parameters (with_entry submodel gf t)) with (parameters t).
  destruct (to_use_of (parameters t) submodel arg) as [to_use | |];
    try discriminate H. simpl obind in H.
  rewrite bind_eval_in.
  change (parameters (with_entry submodel gf t)) with (parameters t).
  destruct (get_entry (parameters t) submodel arg) as [e | |];
    try discriminate H. simpl obind in H.
  rewrite bind_eval_in.
  destruct (item (e_id e) to_use) as [id | |]; try discriminate H. simpl obind in H.
  destruct (negb (value_eqb id (VStr "-"))).
  - rewrite bind_eval_in.
    change (id_list (with_entry submodel gf t)) with (id_list t).
    change (p_guess (with_entry submodel gf t)) with (p_guess t).
    destruct (index_of_string id (id_list t)) as [i |] eqn:Ei;
      try discriminate H. simpl of_option in *. simpl obind in *.
    destruct (item (p_guess t) i) as [g' | |]; try discriminate H. simpl obind in H.
    destruct (item (p_fitted t) i) as [f' | |] eqn:Ef; try discriminate H.
    simpl in H. inversion H; subst g' f'.
    rewrite (bind_ok _ _ _ _ _ (submodel_update_with_entry _ _ _ _)).
    rewrite bind_eval_in.
    change (id_list (with_entry submodel ?x t)) with (id_list t).
    change (p_fitted (with_entry submodel ?x t)) with (p_fitted t).
    rewrite Ei. simpl of_option. simpl obind.
    rewrite Ef. rewrite submodel_update_with_entry. reflexivity.
  - rewrite bind_eval_in.
    destruct (item (e_guess e) to_use) as [g' | |]; try discriminate H.
    simpl obind in H.
    destruct (item (e_fitted e) to_use) as [f' | |]; try discriminate H.
    simpl in H. inversion H; subst g' f'.
    rewrite (bind_ok _ _ _ _ _ (submodel_update_with_entry _ _ _ _)).
    rewrite bind_eval_in. rewrite submodel_update_with_entry. reflexivity.
Qed.

Lemma preview_args_run submodel t args :
  forall gf gfs,
    map_outcome (preview_values t submodel) args = Ok gfs ->
    for_each args (preview_arg submodel) (with_entry submodel gf t)
    = (Ok tt,
       with_entry submodel
         (fst gf ++ vals_text (map fst gfs), snd gf ++ vals_text (map snd gfs)) t).
Proof.
  induction args as [| arg args IH]; intros gf gfs H; simpl in *.
  - inversion H; subst gfs. simpl. rewrite !append_nil_r. destruct gf; reflexivity.
  - destruct (preview_values t submodel arg) as [[g f] | |] eqn:E;
      try discriminate H. simpl in H.
    destruct (map_outcome (preview_values t submodel) args) as [rest | |];
      try discriminate H. simpl in H. inversion H; subst gfs.
    rewrite (bind_ok _ _ _ _ _ (preview_arg_run _ _ gf _ _ _ E)).
    rewrite (IH _ rest eq_refl). simpl. rewrite !append_assoc. reflexivity.
Qed.

(** The text of a call, as it is completed under the loop. *)
Lemma vals_text_args_text vals : ", " ++ vals_text vals = args_text vals ++ ", ".
Proof.
  induction vals as [| v vals IH].
  - reflexivity.
  - change (vals_text (v :: vals)) with (str v ++ ", " ++ vals_text vals).
    change (args_text (v :: vals)) with (", " ++ str v ++ args_text vals).
    rewrite IH, !append_assoc. reflexivity.
Qed.

Lemma call_text_closed name vals :
  drop_last 2 (("" ++ name ++ "(x, ") ++ vals_text vals) ++ ")" = call_text name vals.
Proof.
  unfold call_text.
  change ("" ++ name ++ "(x, ") with (name ++ "(x" ++ ", ").
  rewrite !append_assoc, vals_text_args_text, <- !append_assoc.
  change 2 with (String.length ", ").
  rewrite drop_last_suffix, !append_assoc. reflexivity.
Qed.

Lemma preview_submodel_run signature py_accepts submodel t g f :
  is_active (parameters t) submodel = Ok true ->
  preview_texts signature t submodel = Ok (g, f) ->
  py_accepts ("lambda x:" ++ g) = true ->
  py_accepts ("lambda x:" ++ f) = true ->
  preview_submodel signature py_accepts submodel t
  = (Ok tt, with_entry submodel (g, f) t).
Proof.
  intros Ha Ht Hg Hf. unfold preview_texts in Ht. unfold preview_submodel.
  rewrite bind_eval_in, Ha. cbv iota beta. rewrite bind_modify.
  change (set_self_submodel (assoc_set submodel ("", "") (self_submodel t)) t)
    with (with_entry submodel ("", "") t).
  rewrite bind_eval_in.
  destruct (signature_main_first signature (split_first "#" submodel))
    as [args_expected | |]; try discriminate Ht. simpl obind in Ht.
  destruct (map_outcome (preview_values t submodel) (tl args_expected))
    as [gfs | |] eqn:E; try discriminate Ht. simpl in Ht. inversion Ht; subst g f.
  rewrite (bind_ok _ _ _ _ _ (submodel_update_with_entry _ _ _ _)).
  rewrite (bind_ok _ _ _ _ _ (submodel_update_with_entry _ _ _ _)).
  rewrite (bind_ok _ _ _ _ _ (preview_args_run _ _ _ _ _ E)).
  rewrite (bind_ok _ _ _ _ _ (submodel_update_with_entry _ _ _ _)).
  rewrite (bind_ok _ _ _ _ _ (submodel_update_with_entry _ _ _ _)).
  rewrite bind_eval_in, with_entry_lookup. cbv iota beta.
  cbn [fst snd]. rewrite !call_text_closed.
  cbn [of_option fst snd]. unfold py_eval, bind. rewrite Hg, Hf. reflexivity.
Qed.

(* ================================================================== *)
(** * Scenario 1 on any sheet *)

Lemma start_model_run s :
  start_model s
  = (Ok tt,
     mk_self (clear_ids (number_rows 0 (cells s)))
       (scan_rows [] 0 (number_rows 0 (cells s)))
       [] [] [] [] [] [] (id_list s) (self_model_string s) (self_submodel s)
       "" "" 0 0).
Proof. reflexivity. Qed.

Section Scenario1.

Variable signature : scope -> string -> outcome (list string).
Variable fuel : nat.
Variable s : self.
Variables (first : string) (i_a i_c : nat) (a c : row).

Hypothesis Hsig : signature in_update_model "gauss" = Ok [first; "amplitude"; "center"].
Hypothesis Honly : only_active "gauss" (cells s) = true.
Hypothesis Hsa : selected "gauss" "amplitude" (cells s) = Some (i_a, a).
Hypothesis Hva : c_vary a = VStr "y".
Hypothesis Hsc : selected "gauss" "center" (cells s) = Some (i_c, c).
Hypothesis Hvc : c_vary c = VStr "n".

Lemma scenario1_assembled :
  exists cells' ps' pre post la ja lc jc,
    bind start_model (fun _ => assemble signature fuel) s
    = (Ok tt,
       mk_self cells' ps'
         [c_min a] [c_max a] [c_guess a] [c_fitted a] [c_error a]
         [] (id_list s) (self_model_string s) (self_submodel s)
         "p0, " ("gauss(x, p0, " ++ str (c_guess c) ++ ", ) + ") 1 0)
    /\ map fst ps' = (pre ++ "gauss" :: post)%list
    /\ (forall k, In k pre -> is_active ps' k = Ok false)
    /\ (forall k, In k post -> is_active ps' k = Ok false)
    /\ is_active ps' "gauss" = Ok true
    /\ get_entry ps' "gauss" "amplitude"
       = Ok (entry_with_id (VStr "p0") ja (entry_of_rows la))
    /\ index_of (VStr "y") (e_use (entry_of_rows la)) = Some ja
    /\ nth_error la ja = Some (i_a, a)
    /\ get_entry ps' "gauss" "center"
       = Ok (entry_fixed (c_guess c) jc (entry_of_rows lc))
    /\ index_of (VStr "y") (e_use (entry_of_rows lc)) = Some jc
    /\ nth_error lc jc = Some (i_c, c).
Proof.
  set (ps0 := scan_rows [] 0 (number_rows 0 (cells s))).
  destruct (selected_entry _ _ _ _ _ Hsa) as [la [ja [Hea [Hia Hna]]]].
  destruct (selected_entry _ _ _ _ _ Hsc) as [lc [jc [Hec [Hic Hnc]]]].
  destruct (entry_of_rows_nth _ _ _ _ Hna)
    as [Ha1 [Ha2 [Ha3 [Ha4 [Ha5 [Ha6 [Ha7 [Ha8 Ha9]]]]]]]].
  destruct (entry_of_rows_nth _ _ _ _ Hnc)
    as [Hc1 [Hc2 [Hc3 [Hc4 [Hc5 [Hc6 [Hc7 [Hc8 Hc9]]]]]]]].
  rewrite Hva in Ha3. rewrite Hvc in Hc3.
  destruct (keys_around "gauss" (cells s) Honly (selected_active _ _ _ _ _ Hsa))
    as [pre [post [Hkeys [Hpre Hpost]]]].
  pose proof (is_active_selected _ _ _ _ _ Hsa) as Hact.
  fold ps0 in Hea, Hec, Hkeys, Hpre, Hpost, Hact.
  set (ea := entry_with_id (VStr "p0") ja (entry_of_rows la)).
  set (ec := entry_fixed (c_guess c) jc (entry_of_rows lc)).
  set (ps1 := with_param "gauss" "amplitude" ea ps0).
  set (ps2 := with_param "gauss" "center" ec ps1).
  assert (Hec1 : get_entry ps1 "gauss" "center" = Ok (entry_of_rows lc)).
  { unfold ps1. rewrite get_entry_with_param_other; [exact Hec | right; discriminate]. }
  assert (Hsk : skeleton ps2 = skeleton ps0).
  { unfold ps2. rewrite (with_param_skeleton _ _ _ _ _ Hec1) by reflexivity.
    unfold ps1. apply (with_param_skeleton _ _ _ _ _ Hea). reflexivity. }
  eexists _, ps2, pre, post, la, ja, lc, jc.
  split; [| repeat split].
  - rewrite (bind_ok _ _ _ _ _ (start_model_run s)). fold ps0.
    match goal with |- assemble _ _ ?t = _ => set (s0 := t) end.
    unfold assemble. rewrite bind_eval_in. cbv beta iota.
    change (parameters s0) with ps0.
    rewrite Hkeys, for_each_app.
    rewrite (bind_ok _ _ _ tt _
               (for_each_unchanged _ _ _
                  (fun k H => assemble_submodel_inactive signature fuel k s0 (Hpre k H)))).
    cbn [for_each].
    erewrite bind_ok; cycle 1.
    { rewrite (assemble_submodel_active signature fuel "gauss" s0 _ _ Hact Hsig).
      unfold s0.
      cbn [for_each]. rewrite !bind_assoc.
      erewrite bind_ok; cycle 1.
      { eapply assemble_arg_free; fields; try eassumption; try reflexivity.
        simpl. eapply nth_error_lt; eassumption. }
      cbv zeta. fields. rewrite !bind_assoc.
      erewrite bind_ok; cycle 1.
      { eapply assemble_arg_fixed; fields; try eassumption.
        - simpl. eapply nth_error_lt; eassumption.
        - simpl. eapply nth_error_lt; eassumption.
        - simpl. eapply nth_error_lt; eassumption. }
      fields. rewrite bind_ret. unfold model_append, modify. fields.
      reflexivity. }
    rewrite (for_each_unchanged _ post).
    + unfold set_model_string. fields. rewrite !append_assoc. reflexivity.
    + intros k Hk. apply assemble_submodel_inactive. fields.
      fold ea ps1 ec ps2.
      rewrite (skeleton_is_active _ _ _ Hsk). auto.
  - rewrite (skeleton_keys _ _ Hsk). exact Hkeys.
  - intros k Hk. rewrite (skeleton_is_active _ _ _ Hsk). auto.
  - intros k Hk. rewrite (skeleton_is_active _ _ _ Hsk). auto.
  - rewrite (skeleton_is_active _ _ _ Hsk). exact Hact.
  - unfold ps2. rewrite get_entry_with_param_other by (right; discriminate).
    unfold ps1. eapply get_entry_with_param_same; eauto.
  - exact Hia.
  - exact Hna.
  - unfold ps2. eapply get_entry_with_param_same; eauto.
  - exact Hic.
  - exact Hnc.
Qed.

End Scenario1.

Lemma preview_values_free t submodel arg e to_use id i g f :
  get_entry (parameters t) submodel arg = Ok e ->
  index_of (VStr "y") (e_use e) = Some to_use ->
  nth_error (e_id e) to_use = Some id ->
  value_eqb id (VStr "-") = false ->
  index_of_string id (id_list t) = Some i ->
  nth_error (p_guess t) i = Some g ->
  nth_error (p_fitted t) i = Some f ->
  preview_values t submodel arg = Ok (g, f).
Proof.
  intros He Hu Hid Hd Hi Hg Hf. unfold preview_values.
  rewrite (to_use_of_ok _ _ _ _ _ He Hu), He. simpl obind.
  rewrite (item_ok _ _ _ Hid). simpl obind. rewrite Hd. simpl negb. cbv iota.
  rewrite Hi. simpl. rewrite (item_ok _ _ _ Hg). simpl.
  rewrite (item_ok _ _ _ Hf). reflexivity.
Qed.

Lemma preview_values_fixed t submodel arg e to_use g f :
  get_entry (parameters t) submodel arg = Ok e ->
  index_of (VStr "y") (e_use e) = Some to_use ->
  nth_error (e_id e) to_use = Some (VStr "-") ->
  nth_error (e_guess e) to_use = Some g ->
  nth_error (e_fitted e) to_use = Some f ->
  preview_values t submodel arg = Ok (g, f).
Proof.
  intros He Hu Hid Hg Hf. unfold preview_values.
  rewrite (to_use_of_ok _ _ _ _ _ He Hu), He. simpl obind.
  rewrite (item_ok _ _ _ Hid). simpl.
  rewrite (item_ok _ _ _ Hg). simpl. rewrite (item_ok _ _ _ Hf). reflexivity.
Qed.

Lemma fill_empty_single d v : fill_empty d [v] = [or_default d v].
Proof.
  unfold fill_empty, or_default, value_in. simpl.
  destruct (value_eqb v (VStr "")); reflexivity.
Qed.

Lemma update_submodels_state signature py_accepts t :
  snd (update_submodels signature py_accepts t)
  = set_self_submodel
      (self_submodel (snd (update_submodels signature py_accepts t))) t.
Proof.
  apply same_but_submodel_eq, update_submodels_same_but_submodel.
Qed.

(** C1.  Scenario 1 on any sheet and any sheet object.  The sheet has
    rows in use for no submodel but [gauss]; the use-case selected for
    its [amplitude] (the first row of the pair that is in use) has
    vary ['y'], guess 1, min 0 and max 10, the one selected for its
    [center] has vary ['n'] and guess 5; the registry gives
    [gauss] the arguments [amplitude] and [center] after its first.
    Rows of other submodels that are not in use, rows without a
    submodel, use-cases that are not in use, and whatever an earlier
    call left in the cells and in the attributes do not matter: after
    [update_model] the model text is [lambda x, p0: gauss(x, p0, 5, )]
    (Python ignores the comma before the closing parenthesis: the
    expression is [gauss(x, p0, 5)]), the only free identifier is [p0],
    the guess vector is [[1]] and the bounds are [[0]] and [[10]].
    The call returns when [eval] accepts that text and the two
    previews of the submodel that [update_submodels] builds. *)
Theorem update_model_scenario1 signature py_accepts fuel s first first' i_a a i_c c :
  signature in_update_model "gauss" = Ok [first; "amplitude"; "center"] ->
  only_active "gauss" (cells s) = true ->
  selected "gauss" "amplitude" (cells s) = Some (i_a, a) ->
  c_vary a = VStr "y" -> c_guess a = VInt 1 ->
  c_min a = VInt 0 -> c_max a = VInt 10 ->
  selected "gauss" "center" (cells s) = Some (i_c, c) ->
  c_vary c = VStr "n" -> c_guess c = VInt 5 ->
  let (o, s') := update_model signature py_accepts fuel s in
  self_model_string s' = "lambda x, p0: gauss(x, p0, 5, )"
  /\ id_list s' = ["p0"]
  /\ p_guess s' = [VInt 1]
  /\ p_min s' = [VInt 0] /\ p_max s' = [VInt 10]
  /\ (py_accepts "lambda x, p0: gauss(x, p0, 5, )" = true ->
      signature_main_first signature "gauss" = Ok [first'; "amplitude"; "center"] ->
      py_accepts "lambda x:gauss(x, 1, 5)" = true ->
      py_accepts ("lambda x:gauss(x, "
                    ++ str (or_default (VInt 0) (c_fitted a)) ++ ", 5)") = true ->
      o = Ok tt).
Proof.
  intros Hsig Honly Hsa Hva Hga Hmna Hmxa Hsc Hvc Hgc.
  destruct (scenario1_assembled signature fuel s first i_a i_c a c
              Hsig Honly Hsa Hva Hsc Hvc)
    as [cells' [ps' [pre [post [la [ja [lc [jc
         [Hrun [Hkeys [Hpre [Hpost [Hact [Hea [Hia [Hna [Hec [Hic Hnc]]]]]]]]]]]]]]]]]].
  rewrite Hga, Hmna, Hmxa, Hgc in Hrun.
  rewrite (bind_ok _ _ _ _ _ (start_model_run s)) in Hrun.
  rewrite update_model_blocks, (bind_ok _ _ _ _ _ (start_model_run s)),
    (bind_ok _ _ _ _ _ Hrun).
  clear Hrun.
  unfold finish_model. repeat (rewrite ?bind_assoc; rewrite bind_modify).
  rewrite ?bind_assoc, bind_eval_in. fields.
  change (map strip (split "," (drop_last 2 "p0, "))) with ["p0"].
  change ("lambda x, " ++ drop_last 2 "p0, " ++ ": "
          ++ drop_last 3 ("gauss(x, p0, " ++ str (VInt 5) ++ ", ) + "))
    with "lambda x, p0: gauss(x, p0, 5, )".
  cbv iota beta. unfold py_eval.
  destruct (py_accepts "lambda x, p0: gauss(x, p0, 5, )") eqn:Hacc.
  2:{ rewrite bind_raise. repeat split. discriminate. }
  rewrite bind_ret.
  unfold check_guess. rewrite !bind_assoc, bind_eval_in. fields.
  change (value_in (VStr "") [VInt 1]) with false. cbv iota beta.
  rewrite bind_ret.
  unfold fill_defaults. repeat (rewrite ?bind_assoc; rewrite bind_modify). fields.
  change (fill_empty (VInf true) [VInt 0]) with [VInt 0].
  change (fill_empty (VInf false) [VInt 10]) with [VInt 10].
  rewrite !fill_empty_single.
  match goal with
  | |- context [update_submodels signature py_accepts ?t] => set (t4 := t)
  end.
  pose proof (update_submodels_state signature py_accepts t4) as Hst.
  destruct (update_submodels signature py_accepts t4) as [o t5] eqn:Hsub.
  simpl in Hst. rewrite Hst. repeat split.
  intros _ Hmain Hg Hf.
  assert (Hok : update_submodels signature py_accepts t4
                = (Ok tt,
                   with_entry "gauss"
                     ("gauss(x, 1, 5)",
                      "gauss(x, " ++ str (or_default (VInt 0) (c_fitted a)) ++ ", 5)")
                     (set_self_submodel [] t4))).
  { destruct (entry_of_rows_nth _ _ _ _ Hna)
      as [Ha1 [Ha2 [Ha3 [Ha4 [Ha5 [Ha6 [Ha7 [Ha8 Ha9]]]]]]]].
    destruct (entry_of_rows_nth _ _ _ _ Hnc)
      as [Hc1 [Hc2 [Hc3 [Hc4 [Hc5 [Hc6 [Hc7 [Hc8 Hc9]]]]]]]].
    unfold update_submodels. rewrite bind_modify, bind_eval_in. cbv iota beta.
    set (t := set_self_submodel [] t4).
    change (parameters t) with ps'. rewrite Hkeys, for_each_app.
    rewrite (bind_ok _ _ _ tt _
               (for_each_unchanged _ _ _
                  (fun k H => preview_submodel_inactive signature py_accepts k t
                                (Hpre k H)))).
    cbn [for_each].
    assert (Htexts : preview_texts signature t "gauss"
                     = Ok ("gauss(x, 1, 5)",
                           "gauss(x, " ++ str (or_default (VInt 0) (c_fitted a))
                             ++ ", 5)")).
    { unfold preview_texts. change (split_first "#" "gauss") with "gauss".
      rewrite Hmain. simpl obind. simpl tl. simpl map_outcome.
      rewrite (preview_values_free t "gauss" "amplitude" _ ja (VStr "p0") 0
                 (VInt 1) (or_default (VInt 0) (c_fitted a)) Hea Hia);
        try reflexivity.
      2:{ simpl. apply nth_error_list_set. eapply nth_error_lt; eassumption. }
      simpl obind.
      rewrite (preview_values_fixed t "gauss" "center" _ jc
                 (c_guess c) (c_guess c) Hec Hic).
      + rewrite Hgc. cbn [obind map fst snd]. unfold call_text. cbn [args_text].
        rewrite !append_assoc. reflexivity.
      + simpl. apply nth_error_list_set. eapply nth_error_lt; eassumption.
      + exact Hc4.
      + simpl. apply nth_error_list_set. eapply nth_error_lt; eassumption. }
    rewrite (bind_ok _ _ _ tt _
               (preview_submodel_run signature py_accepts "gauss" t _ _
                  Hact Htexts Hg Hf)).
    apply for_each_unchanged. intros k Hk.
    apply preview_submodel_inactive. exact (Hpost k Hk). }
  rewrite Hok in Hsub. inversion Hsub. reflexivity.
Qed.

Lemma update_model_scenario1_witness :
  let (o, s') := update_model sig_gauss2 accepting_in_use 0 scenario1_in_use in
  self_model_string s' = "lambda x, p0: gauss(x, p0, 5, )"
  /\ id_list s' = ["p0"]
  /\ p_guess s' = [VInt 1]
  /\ p_min s' = [VInt 0] /\ p_max s' = [VInt 10]
  /\ (accepting_in_use "lambda x, p0: gauss(x, p0, 5, )" = true ->
      signature_main_first sig_gauss2 "gauss" = Ok ["x"; "amplitude"; "center"] ->
      accepting_in_use "lambda x:gauss(x, 1, 5)" = true ->
      accepting_in_use
        ("lambda x:gauss(x, "
           ++ str (or_default (VInt 0) (c_fitted amplitude_in_use)) ++ ", 5)") = true ->
      o = Ok tt).
Proof.
  apply (update_model_scenario1 sig_gauss2 accepting_in_use 0 scenario1_in_use
           "x" "x" 3 amplitude_in_use 4 center_in_use);
    reflexivity.
Defined.

(* ================================================================== *)
(** * The validation at the end of [update_model] *)










(* ================================================================== *)
(** * [fake_sigma] and [index] *)






Lemma index_empty v : index [] v = Raise ValueError_empty_argmin.
Proof. reflexivity. Qed.






(* ================================================================== *)
(** * What a call that fails has already written *)

Lemma same_hash_refl s : same_hash s s.
Proof. reflexivity. Qed.

Lemma same_hash_trans s1 s2 s3 : same_hash s1 s2 -> same_hash s2 s3 -> same_hash s1 s3.
Proof. unfold same_hash. congruence. Qed.

Lemma hash_set_field c v r : c_hash (set_field c v r) = c_hash r.
Proof. destruct c; reflexivity. Qed.

Lemma hash_list_set i r r' cells :
  nth_error cells i = Some r -> c_hash r' = c_hash r ->
  map c_hash (list_set i r' cells) = map c_hash cells.
Proof.
  revert i. induction cells as [| a cells IH]; intros [| i] Hi Hr;
    simpl in *; try discriminate.
  - injection Hi as ->. rewrite Hr. reflexivity.
  - f_equal. eauto.
Qed.

Lemma hash_set_cell_value v hashtag c cells :
  map c_hash (set_cell_value v hashtag c cells) = map c_hash cells.
Proof.
  unfold set_cell_value. destruct (nth_error cells hashtag) as [r |] eqn:E.
  - eapply hash_list_set; eauto. apply hash_set_field.
  - reflexivity.
Qed.

Lemma hash_number_rows cells :
  forall n, map c_hash (number_rows n cells)
            = map (fun i => VInt (Z.of_nat i)) (seq n (List.length cells)).
Proof.
  induction cells as [| r cells IH]; intros n; simpl; [| rewrite IH]; reflexivity.
Qed.

Lemma hash_clear_ids cells : map c_hash (clear_ids cells) = map c_hash cells.
Proof.
  unfold clear_ids. rewrite map_map. apply map_ext. intros r. apply hash_set_field.
Qed.

Lemma write_cell_same_hash v hashtag c : preserves same_hash (write_cell v hashtag c).
Proof. intros s. unfold same_hash. simpl. symmetry. apply hash_set_cell_value. Qed.

Lemma assign_same_hash submodel arg c to_use v :
  preserves same_hash (assign submodel arg c to_use v).
Proof. intros s. unfold same_hash. rewrite assign_same_cells. reflexivity. Qed.

Lemma submodel_update_same_hash submodel f :
  preserves same_hash (submodel_update submodel f).
Proof. intros s. unfold same_hash. rewrite submodel_update_same_cells. reflexivity. Qed.

Ltac hash_leaf :=
  first
    [ apply write_cell_same_hash
    | apply assign_same_hash
    | apply submodel_update_same_hash
    | apply preserves_modify; intros ?; reflexivity ].

Lemma assemble_arg_same_hash fuel submodel arg :
  preserves same_hash (assemble_arg fuel submodel arg).
Proof.
  unfold assemble_arg, model_append, var_append.
  peel same_hash_refl same_hash_trans hash_leaf.
Qed.

Lemma after_start_same_hash signature py_accepts fuel :
  preserves same_hash
    (bind (assemble signature fuel) (fun _ =>
       bind (finish_model py_accepts) (fun _ =>
         bind check_guess (fun _ =>
           bind fill_defaults (fun _ => update_submodels signature py_accepts))))).
Proof.
  unfold assemble, assemble_submodel, model_append, finish_model, check_guess,
    fill_defaults, update_submodels, preview_submodel, preview_arg.
  peel same_hash_refl same_hash_trans
    ltac:(first [apply assemble_arg_same_hash | hash_leaf]).
Qed.

Lemma keeps_ids_refl s : keeps_ids s s.
Proof. intros H. exact H. Qed.

Lemma keeps_ids_trans s1 s2 s3 : keeps_ids s1 s2 -> keeps_ids s2 s3 -> keeps_ids s1 s3.
Proof. unfold keeps_ids. auto. Qed.

Lemma ids_list_set i r cells :
  Forall (fun r => id_cell (c_id r)) cells -> id_cell (c_id r) ->
  Forall (fun r => id_cell (c_id r)) (list_set i r cells).
Proof.
  intros H Hr. revert i. induction H as [| a cells Ha H IH]; intros [| i]; simpl;
    constructor; auto.
Qed.

Lemma write_cell_keeps_ids v hashtag c :
  (c = col_id -> id_cell v) -> preserves keeps_ids (write_cell v hashtag c).
Proof.
  intros Hv s H. unfold ids_rewritten in *. simpl. unfold set_cell_value.
  destruct (nth_error (cells s) hashtag) as [r |] eqn:E; [| exact H].
  apply ids_list_set; [exact H |].
  assert (Hr : id_cell (c_id r)).
  { eapply Forall_forall in H; [exact H |]. eapply nth_error_In; eauto. }
  destruct c; simpl; auto.
Qed.

Lemma assign_keeps_ids submodel arg c to_use v :
  preserves keeps_ids (assign submodel arg c to_use v).
Proof. intros s H. unfold ids_rewritten. rewrite assign_same_cells. exact H. Qed.

Lemma submodel_update_keeps_ids submodel f :
  preserves keeps_ids (submodel_update submodel f).
Proof. intros s H. unfold ids_rewritten. rewrite submodel_update_same_cells. exact H. Qed.

Ltac id_cell_written :=
  intros Hc;
  first
    [ discriminate Hc
    | right; left; reflexivity
    | right; right; eexists; (split; [ | reflexivity ]);
      eexists; first [left; reflexivity | right; reflexivity] ].

Ltac ids_leaf :=
  first
    [ apply write_cell_keeps_ids; id_cell_written
    | apply assign_keeps_ids
    | apply submodel_update_keeps_ids
    | apply preserves_modify; intros ? H; exact H ].

Lemma assemble_arg_keeps_ids fuel submodel arg :
  preserves keeps_ids (assemble_arg fuel submodel arg).
Proof.
  unfold assemble_arg, model_append, var_append.
  peel keeps_ids_refl keeps_ids_trans ids_leaf.
Qed.

Lemma after_start_keeps_ids signature py_accepts fuel :
  preserves keeps_ids
    (bind (assemble signature fuel) (fun _ =>
       bind (finish_model py_accepts) (fun _ =>
         bind check_guess (fun _ =>
           bind fill_defaults (fun _ => update_submodels signature py_accepts))))).
Proof.
  unfold assemble, assemble_submodel, model_append, finish_model, check_guess,
    fill_defaults, update_submodels, preview_submodel, preview_arg.
  peel keeps_ids_refl keeps_ids_trans
    ltac:(first [apply assemble_arg_keeps_ids | ids_leaf]).
Qed.

Lemma ids_cleared cells : Forall (fun r => id_cell (c_id r)) (clear_ids cells).
Proof.
  unfold clear_ids. apply Forall_forall. intros r Hr.
  apply in_map_iff in Hr. destruct Hr as [r0 [<- _]]. left. reflexivity.
Qed.

(** C8, as amended.  However [update_model] ends, and so when it
    aborts with the missing-guess error, the sheet it leaves has the
    rows it was given with their [submodel], [arg], [use], [vary],
    [min] and [max] cells as they were; the [#] column holds the row
    numbers from 0, and every [id] cell is empty, or holds ['-'] or an
    id [p<N>] or [x<N>]: the writes made before the validation stay. *)
Theorem update_model_partial_writes signature py_accepts fuel s :
  let s' := snd (update_model signature py_accepts fuel s) in
  map structure (cells s') = map structure (cells s)
  /\ map c_hash (cells s') = row_numbers (List.length (cells s))
  /\ Forall (fun r => id_cell (c_id r)) (cells s').
Proof.
  cbv zeta. split; [symmetry; apply update_model_same_structure |].
  rewrite update_model_blocks, (bind_ok _ _ _ _ _ (start_model_run s)).
  match goal with |- context [bind _ _ ?t] => set (s0 := t) end.
  split.
  - rewrite <- (after_start_same_hash signature py_accepts fuel s0).
    unfold s0. fields. rewrite hash_clear_ids. apply hash_number_rows.
  - apply (after_start_keeps_ids signature py_accepts fuel s0).
    unfold ids_rewritten, s0. fields. apply ids_cleared.
Qed.

(* ================================================================== *)
(** * A link chain that ends in a cycle *)












